(** * SceneManager: texture registry, material registry, shader bridge and
      scene assembly of the OpenGL scene (SceneManager.cpp).

    The C++ class is embedded as a record of its members together with the
    collaborators it drives (the ShaderManager it points to, the ShapeMeshes
    object it owns, the OpenGL context).  Calls into a collaborator are kept
    as a log of the calls made, so that "which uniforms were written" and
    "which primitives were drawn, in which order" are plain list facts.
    GLfloat values are idealised as real numbers. *)

From Stdlib Require Import ZArith List String Reals Lia Lra.
From stdpp Require Import base list strings.
From Equations Require Import Equations.
Import ListNotations.

Local Open Scope string_scope.
Local Open Scope list_scope.
Local Open Scope Z_scope.

(** ** GLM: the vector and matrix operations SetTransformations relies on.

    GLM is an external header library; the definitions below follow its
    column-major [mat4] and the bodies of [glm::scale], [glm::rotate],
    [glm::translate], [glm::radians] and [operator*], over the reals.

    The program computes in single-precision floats.  Entries obtained from
    0 and 1 by products and sums are the same in both; an entry that goes
    through [cos], [sin] or the constant of [glm::radians] is, in the
    program, a rounding of the real number found here, so what is stated
    about rotated vectors is stated up to a tolerance ([near] below), not as
    an equality. *)
Module Glm.
Local Open Scope R_scope.

Record vec2 := mkvec2 { u2 : R; v2 : R }.
Record vec3 := mkvec3 { x3 : R; y3 : R; z3 : R }.
Record vec4 := mkvec4 { x4 : R; y4 : R; z4 : R; w4 : R }.

(** A [mat4] is four columns; [col0 m] is [m[0]] in GLM. *)
Record mat4 := mkmat4 { col0 : vec4; col1 : vec4; col2 : vec4; col3 : vec4 }.

Definition vadd (a b : vec4) : vec4 :=
  mkvec4 (x4 a + x4 b) (y4 a + y4 b) (z4 a + z4 b) (w4 a + w4 b).

Definition vscale (a : vec4) (k : R) : vec4 :=
  mkvec4 (x4 a * k) (y4 a * k) (z4 a * k) (w4 a * k).

(** [mat4(1.0f)] *)
Definition identity : mat4 :=
  mkmat4 (mkvec4 1 0 0 0) (mkvec4 0 1 0 0) (mkvec4 0 0 1 0) (mkvec4 0 0 0 1).

(** [m * v] : [m[0]*v[0] + m[1]*v[1] + m[2]*v[2] + m[3]*v[3]] *)
Definition mul_vec (m : mat4) (v : vec4) : vec4 :=
  vadd (vadd (vadd (vscale (col0 m) (x4 v)) (vscale (col1 m) (y4 v)))
             (vscale (col2 m) (z4 v)))
       (vscale (col3 m) (w4 v)).

(** [m1 * m2] : column [j] of the result is [m1] applied to column [j] of
    [m2]. *)
Definition mul (m1 m2 : mat4) : mat4 :=
  mkmat4 (mul_vec m1 (col0 m2)) (mul_vec m1 (col1 m2))
         (mul_vec m1 (col2 m2)) (mul_vec m1 (col3 m2)).

(** [glm::radians] *)
Definition radians (degrees : R) : R := degrees * (PI / 180).

Definition dot (a b : vec3) : R := x3 a * x3 b + y3 a * y3 b + z3 a * z3 b.

(** [glm::normalize(v)] is [v * inversesqrt(dot(v, v))]. *)
Definition normalize (v : vec3) : vec3 :=
  let k := / sqrt (dot v v) in
  mkvec3 (x3 v * k) (y3 v * k) (z3 v * k).

(** [glm::scale(m, v)] *)
Definition scale_m (m : mat4) (v : vec3) : mat4 :=
  mkmat4 (vscale (col0 m) (x3 v)) (vscale (col1 m) (y3 v))
         (vscale (col2 m) (z3 v)) (col3 m).

(** [glm::translate(m, v)] *)
Definition translate_m (m : mat4) (v : vec3) : mat4 :=
  mkmat4 (col0 m) (col1 m) (col2 m)
         (vadd (vadd (vadd (vscale (col0 m) (x3 v)) (vscale (col1 m) (y3 v)))
                     (vscale (col2 m) (z3 v)))
               (col3 m)).

(** [glm::rotate(m, angle, v)] *)
Definition rotate_m (m : mat4) (angle : R) (v : vec3) : mat4 :=
  let c := cos angle in
  let s := sin angle in
  let axis := normalize v in
  let temp := mkvec3 ((1 - c) * x3 axis) ((1 - c) * y3 axis) ((1 - c) * z3 axis) in
  let r00 := c + x3 temp * x3 axis in
  let r01 := x3 temp * y3 axis + s * z3 axis in
  let r02 := x3 temp * z3 axis - s * y3 axis in
  let r10 := y3 temp * x3 axis - s * z3 axis in
  let r11 := c + y3 temp * y3 axis in
  let r12 := y3 temp * z3 axis + s * x3 axis in
  let r20 := z3 temp * x3 axis + s * y3 axis in
  let r21 := z3 temp * y3 axis - s * x3 axis in
  let r22 := c + z3 temp * z3 axis in
  mkmat4
    (vadd (vadd (vscale (col0 m) r00) (vscale (col1 m) r01)) (vscale (col2 m) r02))
    (vadd (vadd (vscale (col0 m) r10) (vscale (col1 m) r11)) (vscale (col2 m) r12))
    (vadd (vadd (vscale (col0 m) r20) (vscale (col1 m) r21)) (vscale (col2 m) r22))
    (col3 m).

(** The one-argument forms of <glm/gtx/transform.hpp> start from the
    identity. *)
Definition scale (v : vec3) : mat4 := scale_m identity v.
Definition translate (v : vec3) : mat4 := translate_m identity v.
Definition rotate (angle : R) (v : vec3) : mat4 := rotate_m identity angle v.

End Glm.

(** ** Undefined behaviour as an explicit result.

    C++ gives no meaning to a write past the end of [m_textureIDs] or to a
    call through a null [m_pShaderManager]; a routine that can reach one of
    them returns an [outcome]. *)
Inductive fault := OutOfBounds | NullDereference.

Inductive outcome (A : Type) :=
| Ok (a : A)
| Undefined (why : fault).
Arguments Ok {A} a.
Arguments Undefined {A} why.

Global Instance outcome_ret : MRet outcome := fun A a => Ok a.

Global Instance outcome_bind : MBind outcome := fun A B k c =>
  match c with
  | Ok a => k a
  | Undefined why => Undefined why
  end.

(** Keeps the equation when a loop condition is tested. *)
Definition inspect {A : Type} (a : A) : {b : A | a = b} := exist _ a eq_refl.

(** [for (int i = 0; i < n; i++) body(i)] for a body that changes neither
    [i] nor [n]. *)
Fixpoint for_range {S : Type} (count : nat) (i : Z)
    (body : Z -> S -> outcome S) (s : S) : outcome S :=
  match count with
  | O => Ok s
  | Datatypes.S count' => s' ← body i s; for_range count' (i + 1) body s'
  end.

Definition for_upto {S : Type} (n : Z) (body : Z -> S -> outcome S) (s : S)
    : outcome S :=
  for_range (Z.to_nat n) 0 body s.

(** ** 32-bit integers.

    A texture name is a [GLuint] (the address of [TEXTURE_INFO::ID] is handed
    to [glGenTextures]); the lookups return it as an [int]. *)
Definition to_uint32 (z : Z) : Z := z mod 2 ^ 32.
Definition to_int (u : Z) : Z := if u <? 2 ^ 31 then u else u - 2 ^ 32.

(** ** The ShaderManager collaborator: a log of uniform writes, oldest
    first.  The value a uniform holds is the one written last. *)
Module Shader.

Inductive value :=
| Int (i : Z)
| Bool (b : bool)
| Float (f : R)
| Vec2 (v : Glm.vec2)
| Vec3 (v : Glm.vec3)
| Vec4 (v : Glm.vec4)
| Mat4 (m : Glm.mat4)
| Sampler2D (slot : Z).

Definition ShaderManager := list (string * value).

Definition set (name : string) (v : value) (sh : ShaderManager) : ShaderManager :=
  sh ++ [(name, v)].

Definition setIntValue name (i : Z) := set name (Int i).
Definition setBoolValue name (b : bool) := set name (Bool b).
Definition setFloatValue name (f : R) := set name (Float f).
Definition setVec2Value name (v : Glm.vec2) := set name (Vec2 v).
Definition setVec3Value name (v : Glm.vec3) := set name (Vec3 v).
Definition setVec4Value name (v : Glm.vec4) := set name (Vec4 v).
Definition setMat4Value name (m : Glm.mat4) := set name (Mat4 m).
Definition setSampler2DValue name (slot : Z) := set name (Sampler2D slot).

(** The current value of a uniform: the last write to that name. *)
Fixpoint uniform (sh : ShaderManager) (name : string) : option value :=
  match sh with
  | [] => None
  | (n, v) :: rest =>
      match uniform rest name with
      | Some later => Some later
      | None => if String.eqb n name then Some v else None
      end
  end.

End Shader.

(** ** The ShapeMeshes collaborator: a log of the calls made on it. *)
Module Meshes.

Inductive call :=
| LoadBoxMesh | LoadPlaneMesh | LoadCylinderMesh | LoadConeMesh
| LoadPrismMesh | LoadPyramid4Mesh | LoadSphereMesh
| LoadTaperedCylinderMesh | LoadTorusMesh
| DrawBoxMesh
| DrawPlaneMesh
| DrawCylinderMesh (a b c : bool)
| DrawHalfSphereMesh
| DrawTorusMesh.

Inductive primitive := Box | Plane | Cylinder | HalfSphere | Torus.

(** The primitive a call asks to draw, if it is a draw request. *)
Definition drawn (c : call) : option primitive :=
  match c with
  | DrawBoxMesh => Some Box
  | DrawPlaneMesh => Some Plane
  | DrawCylinderMesh _ _ _ => Some Cylinder
  | DrawHalfSphereMesh => Some HalfSphere
  | DrawTorusMesh => Some Torus
  | _ => None
  end.

Definition ShapeMeshes := list call.

(** The primitives drawn, in order. *)
Definition draws (m : ShapeMeshes) : list primitive := omap drawn m.

End Meshes.

(** ** The OpenGL context: a log of the texture calls issued. *)
Module GL.

Inductive pname := TEXTURE_WRAP_S | TEXTURE_WRAP_T | TEXTURE_MIN_FILTER | TEXTURE_MAG_FILTER.
Inductive param := REPEAT | LINEAR.
Inductive format := RGB8_RGB | RGBA8_RGBA.

Inductive call :=
| GenTextures (name : Z)
| BindTexture (name : Z)
| TexParameteri (p : pname) (v : param)
| TexImage2D (f : format) (width height : Z)
| GenerateMipmap
| ActiveTexture (unit : Z).

End GL.

(** ** The image decoder's answer for a file. *)
Record Image := mkImage { width : Z; height : Z; colorChannels : Z }.

(** ** Data model *)
Record TEXTURE_INFO := mkTEXTURE_INFO { tag : string; ID : Z }.

Record OBJECT_MATERIAL := mkOBJECT_MATERIAL {
  ambientColor : Glm.vec3;
  ambientStrength : R;
  diffuseColor : Glm.vec3;
  specularColor : Glm.vec3;
  shininess : R;
  mtag : string
}.

(** The members of the class, and the log of OpenGL calls it has issued.
    [m_pShaderManager = None] is the null pointer. *)
Record SceneManager := mkSceneManager {
  m_pShaderManager : option Shader.ShaderManager;
  m_basicMeshes : Meshes.ShapeMeshes;
  m_textureIDs : list TEXTURE_INFO;
  m_loadedTextures : Z;
  m_objectMaterials : list OBJECT_MATERIAL;
  gl_calls : list GL.call
}.

Definition set_shader (sh : option Shader.ShaderManager) (st : SceneManager) :=
  mkSceneManager sh (m_basicMeshes st) (m_textureIDs st)
    (m_loadedTextures st) (m_objectMaterials st) (gl_calls st).

Definition set_textures (ts : list TEXTURE_INFO) (n : Z) (st : SceneManager) :=
  mkSceneManager (m_pShaderManager st) (m_basicMeshes st) ts n
    (m_objectMaterials st) (gl_calls st).

Definition set_materials (ms : list OBJECT_MATERIAL) (st : SceneManager) :=
  mkSceneManager (m_pShaderManager st) (m_basicMeshes st) (m_textureIDs st)
    (m_loadedTextures st) ms (gl_calls st).

Definition mesh (c : Meshes.call) (st : SceneManager) :=
  mkSceneManager (m_pShaderManager st) (m_basicMeshes st ++ [c])
    (m_textureIDs st) (m_loadedTextures st) (m_objectMaterials st)
    (gl_calls st).

Definition gl (cs : list GL.call) (st : SceneManager) :=
  mkSceneManager (m_pShaderManager st) (m_basicMeshes st) (m_textureIDs st)
    (m_loadedTextures st) (m_objectMaterials st) (gl_calls st ++ cs).

(** The size of the [m_textureIDs] array. *)
Definition capacity : Z := 16.

(** [m_textureIDs[i]], when [i] is inside the array. *)
Definition slot_at (st : SceneManager) (i : Z) : option TEXTURE_INFO :=
  if (0 <=? i) && (i <? capacity) then m_textureIDs st !! Z.to_nat i else None.

(** The constructor. *)
Definition SceneManager_ctor (pShaderManager : option Shader.ShaderManager)
    : SceneManager :=
  mkSceneManager pShaderManager []
    (replicate (Z.to_nat capacity) (mkTEXTURE_INFO "/0" (to_uint32 (-1))))
    0 [] [].

(** The registry is well formed when the array has its 16 entries and the
    count of loaded textures stays inside it. *)
Definition wf (st : SceneManager) : Prop :=
  length (m_textureIDs st) = Z.to_nat capacity /\
  0 <= m_loadedTextures st <= capacity.

Section Scene.

(** What the surroundings answer: the decoder's result for a file name, the
    texture name the driver hands out after a given history of calls, and
    the bytes found in an [OBJECT_MATERIAL] local that was never assigned. *)
Variable stbi_load : string -> option Image.
Variable glGenTextures : list GL.call -> Z.
Variable indeterminate : OBJECT_MATERIAL.

(** *** Texture registry *)

(** Lines 121-133 of CreateGLTexture: mipmaps, unbind, then the two stores
    into [m_textureIDs[m_loadedTextures]] and the increment. *)
Definition register_texture (textureID : Z) (tag : string) (st : SceneManager)
    : outcome (bool * SceneManager) :=
  let st := gl [GL.GenerateMipmap; GL.BindTexture 0] st in
  match slot_at st (m_loadedTextures st) with
  | None => Undefined OutOfBounds
  | Some _ =>
      Ok (true,
          set_textures
            (<[Z.to_nat (m_loadedTextures st) := mkTEXTURE_INFO tag textureID]>
               (m_textureIDs st))
            (m_loadedTextures st + 1) st)
  end.

(** [stbi_load] stands for the decoder with vertical flipping switched on,
    as CreateGLTexture sets it before every call. *)
Definition CreateGLTexture (filename tag : string) (st : SceneManager)
    : outcome (bool * SceneManager) :=
  match stbi_load filename with
  | Some image =>
      let textureID := to_uint32 (glGenTextures (gl_calls st)) in
      let st := gl [GL.GenTextures textureID; GL.BindTexture textureID;
                    GL.TexParameteri GL.TEXTURE_WRAP_S GL.REPEAT;
                    GL.TexParameteri GL.TEXTURE_WRAP_T GL.REPEAT;
                    GL.TexParameteri GL.TEXTURE_MIN_FILTER GL.LINEAR;
                    GL.TexParameteri GL.TEXTURE_MAG_FILTER GL.LINEAR] st in
      if colorChannels image =? 3 then
        register_texture textureID tag
          (gl [GL.TexImage2D GL.RGB8_RGB (width image) (height image)] st)
      else if colorChannels image =? 4 then
        register_texture textureID tag
          (gl [GL.TexImage2D GL.RGBA8_RGBA (width image) (height image)] st)
      else
        Ok (false, st)
  | None => Ok (false, st)
  end.

(** The body of the loop of BindGLTextures. *)
Definition BindGLTextures_body (i : Z) (st : SceneManager) : outcome SceneManager :=
  match slot_at st i with
  | None => Undefined OutOfBounds
  | Some t => Ok (gl [GL.ActiveTexture i; GL.BindTexture (ID t)] st)
  end.

Definition BindGLTextures (st : SceneManager) : outcome SceneManager :=
  for_upto (m_loadedTextures st) BindGLTextures_body st.

(** The body of the loop of DestroyGLTextures: [glGenTextures] writes a
    name into [m_textureIDs[i].ID]. *)
Definition DestroyGLTextures_body (i : Z) (st : SceneManager)
    : outcome SceneManager :=
  match slot_at st i with
  | None => Undefined OutOfBounds
  | Some t =>
      let name := to_uint32 (glGenTextures (gl_calls st)) in
      Ok (gl [GL.GenTextures name]
            (set_textures
               (<[Z.to_nat i := mkTEXTURE_INFO (tag t) name]> (m_textureIDs st))
               (m_loadedTextures st) st))
  end.

Definition DestroyGLTextures (st : SceneManager) : outcome SceneManager :=
  for_upto (m_loadedTextures st) DestroyGLTextures_body st.

(** The loop of FindTextureID, entered with the current values of its three
    locals. *)
Equations? FindTextureID_while (st : SceneManager) (tag' : string)
    (textureID index : Z) (bFound : bool) : outcome Z
    by wf (Z.to_nat (m_loadedTextures st - index) + (if bFound then 0 else 1))%nat lt :=
  FindTextureID_while st tag' textureID index bFound
    with inspect ((index <? m_loadedTextures st) && negb bFound) := {
    | exist _ false _ => Ok textureID
    | exist _ true _ with slot_at st index := {
      | None => Undefined OutOfBounds
      | Some t with String.eqb (tag t) tag' := {
        | true => FindTextureID_while st tag' (to_int (ID t)) index true
        | false => FindTextureID_while st tag' textureID (index + 1) bFound } } }.
Proof.
  all: apply andb_prop in e as [Hlt Hnf]; apply Z.ltb_lt in Hlt;
    destruct bFound; try discriminate; lia.
Qed.

Definition FindTextureID (tag' : string) (st : SceneManager) : outcome Z :=
  FindTextureID_while st tag' (-1) 0 false.

(** The loop of FindTextureSlot. *)
Equations? FindTextureSlot_while (st : SceneManager) (tag' : string)
    (textureSlot index : Z) (bFound : bool) : outcome Z
    by wf (Z.to_nat (m_loadedTextures st - index) + (if bFound then 0 else 1))%nat lt :=
  FindTextureSlot_while st tag' textureSlot index bFound
    with inspect ((index <? m_loadedTextures st) && negb bFound) := {
    | exist _ false _ => Ok textureSlot
    | exist _ true _ with slot_at st index := {
      | None => Undefined OutOfBounds
      | Some t with String.eqb (tag t) tag' := {
        | true => FindTextureSlot_while st tag' index index true
        | false => FindTextureSlot_while st tag' textureSlot (index + 1) bFound } } }.
Proof.
  all: apply andb_prop in e as [Hlt Hnf]; apply Z.ltb_lt in Hlt;
    destruct bFound; try discriminate; lia.
Qed.

Definition FindTextureSlot (tag' : string) (st : SceneManager) : outcome Z :=
  FindTextureSlot_while st tag' (-1) 0 false.

(** *** Material registry *)

(** The five assignments of FindMaterial: every field but the tag is
    copied into the caller's [material]. *)
Definition copy_material (from material : OBJECT_MATERIAL) : OBJECT_MATERIAL :=
  mkOBJECT_MATERIAL (ambientColor from) (ambientStrength from)
    (diffuseColor from) (specularColor from) (shininess from) (mtag material).

(** The loop of FindMaterial; it yields the caller's [material] as the loop
    leaves it. *)
Equations? FindMaterial_while (st : SceneManager) (tag' : string)
    (material : OBJECT_MATERIAL) (index : Z) (bFound : bool)
    : outcome OBJECT_MATERIAL
    by wf (Z.to_nat (Z.of_nat (length (m_objectMaterials st)) - index)
           + (if bFound then 0 else 1))%nat lt :=
  FindMaterial_while st tag' material index bFound
    with inspect ((index <? Z.of_nat (length (m_objectMaterials st))) && negb bFound) := {
    | exist _ false _ => Ok material
    | exist _ true _ with m_objectMaterials st !! Z.to_nat index := {
      | None => Undefined OutOfBounds
      | Some m with String.eqb (mtag m) tag' := {
        | true => FindMaterial_while st tag' (copy_material m material) index true
        | false => FindMaterial_while st tag' material (index + 1) bFound } } }.
Proof.
  all: apply andb_prop in e as [Hlt Hnf]; apply Z.ltb_lt in Hlt;
    destruct bFound; try discriminate; lia.
Qed.

Definition FindMaterial (tag' : string) (material : OBJECT_MATERIAL)
    (st : SceneManager) : outcome (bool * OBJECT_MATERIAL) :=
  if Z.of_nat (length (m_objectMaterials st)) =? 0 then
    Ok (false, material)
  else
    material ← FindMaterial_while st tag' material 0 false;
    Ok (true, material).

(** *** Transform/shader bridge *)

Definition g_ModelName := "model".
Definition g_ColorValueName := "objectColor".
Definition g_TextureValueName := "objectTexture".
Definition g_UseTextureName := "bUseTexture".
Definition g_UseLightingName := "bUseLighting".

(** The local [modelView] of SetTransformations. *)
Definition modelView (scaleXYZ : Glm.vec3)
    (XrotationDegrees YrotationDegrees ZrotationDegrees : R)
    (positionXYZ : Glm.vec3) : Glm.mat4 :=
  let scale := Glm.scale scaleXYZ in
  let rotationX := Glm.rotate (Glm.radians XrotationDegrees) (Glm.mkvec3 1 0 0) in
  let rotationY := Glm.rotate (Glm.radians YrotationDegrees) (Glm.mkvec3 0 1 0) in
  let rotationZ := Glm.rotate (Glm.radians ZrotationDegrees) (Glm.mkvec3 0 0 1) in
  let translation := Glm.translate positionXYZ in
  Glm.mul (Glm.mul (Glm.mul (Glm.mul translation rotationX) rotationY) rotationZ) scale.

Definition SetTransformations (scaleXYZ : Glm.vec3)
    (XrotationDegrees YrotationDegrees ZrotationDegrees : R)
    (positionXYZ : Glm.vec3) (st : SceneManager) : SceneManager :=
  let modelView :=
    modelView scaleXYZ XrotationDegrees YrotationDegrees ZrotationDegrees
      positionXYZ in
  match m_pShaderManager st with
  | Some sh => set_shader (Some (Shader.setMat4Value g_ModelName modelView sh)) st
  | None => st
  end.

Definition SetShaderColor (redColorValue greenColorValue blueColorValue alphaValue : R)
    (st : SceneManager) : SceneManager :=
  let currentColor :=
    Glm.mkvec4 redColorValue greenColorValue blueColorValue alphaValue in
  match m_pShaderManager st with
  | Some sh =>
      let sh := Shader.setIntValue g_UseTextureName 0 sh in
      let sh := Shader.setVec4Value g_ColorValueName currentColor sh in
      set_shader (Some sh) st
  | None => st
  end.

Definition SetShaderTexture (textureTag : string) (st : SceneManager)
    : outcome SceneManager :=
  match m_pShaderManager st with
  | Some sh =>
      let sh := Shader.setIntValue g_UseTextureName 1 sh in
      textureID ← FindTextureSlot textureTag st;
      Ok (set_shader (Some (Shader.setSampler2DValue g_TextureValueName textureID sh)) st)
  | None => Ok st
  end.

Definition SetTextureUVScale (u v : R) (st : SceneManager) : SceneManager :=
  match m_pShaderManager st with
  | Some sh => set_shader (Some (Shader.setVec2Value "UVscale" (Glm.mkvec2 u v) sh)) st
  | None => st
  end.

(** The five writes of SetShaderMaterial. *)
Definition write_material (material : OBJECT_MATERIAL) (sh : Shader.ShaderManager)
    : Shader.ShaderManager :=
  let sh := Shader.setVec3Value "material.ambientColor" (ambientColor material) sh in
  let sh := Shader.setFloatValue "material.ambientStrength" (ambientStrength material) sh in
  let sh := Shader.setVec3Value "material.diffuseColor" (diffuseColor material) sh in
  let sh := Shader.setVec3Value "material.specularColor" (specularColor material) sh in
  Shader.setFloatValue "material.shininess" (shininess material) sh.

Definition SetShaderMaterial (materialTag : string) (st : SceneManager)
    : outcome SceneManager :=
  if Z.of_nat (length (m_objectMaterials st)) >? 0 then
    let material := indeterminate in
    found ← FindMaterial materialTag material st;
    let (bReturn, material) := found : bool * OBJECT_MATERIAL in
    if bReturn then
      match m_pShaderManager st with
      | Some sh => Ok (set_shader (Some (write_material material sh)) st)
      | None => Undefined NullDereference
      end
    else Ok st
  else Ok st.

(** *** Scene preparation *)

Definition LoadSceneTextures (st : SceneManager) : outcome SceneManager :=
  bReturn ← CreateGLTexture "../../Utilities/textures/rusticwood.jpg" "table" st;
  let st := bReturn.2 in
  bReturn ← CreateGLTexture "../../Utilities/textures/cheese_wheel.jpg" "cheese_wheel_side" st;
  let st := bReturn.2 in
  bReturn ← CreateGLTexture "../../Utilities/textures/cheese_top.jpg" "cheese_wheel_top" st;
  let st := bReturn.2 in
  bReturn ← CreateGLTexture "../../Utilities/textures/breadcrust.jpg" "breadcrust" st;
  let st := bReturn.2 in
  bReturn ← CreateGLTexture "../../Utilities/textures/backdrop.jpg" "backdrop" st;
  let st := bReturn.2 in
  bReturn ← CreateGLTexture "../../Utilities/textures/knife_handle.jpg" "knifehandle" st;
  let st := bReturn.2 in
  bReturn ← CreateGLTexture "../../Utilities/textures/stainless.jpg" "stainless" st;
  let st := bReturn.2 in
  bReturn ← CreateGLTexture "../../Utilities/textures/cheddar.jpg" "cheddar" st;
  let st := bReturn.2 in
  bReturn ← CreateGLTexture
    "../../Utilities/textures/circular-brushed-gold-texture.jpg" "knifescrew" st;
  let st := bReturn.2 in
  BindGLTextures st.

Definition push_back (m : OBJECT_MATERIAL) (st : SceneManager) : SceneManager :=
  set_materials (m_objectMaterials st ++ [m]) st.

Definition DefineObjectMaterials (st : SceneManager) : SceneManager :=
  let goldMaterial :=
    mkOBJECT_MATERIAL (Glm.mkvec3 0.2 0.2 0.2) 0.3 (Glm.mkvec3 0.2 0.2 0.2)
      (Glm.mkvec3 0.5 0.5 0.5) 22 "metal" in
  let st := push_back goldMaterial st in
  let woodMaterial :=
    mkOBJECT_MATERIAL (Glm.mkvec3 0.1 0.1 0.1) 0.2 (Glm.mkvec3 0.3 0.3 0.3)
      (Glm.mkvec3 0.1 0.1 0.1) 0.3 "wood" in
  let st := push_back woodMaterial st in
  let glassMaterial :=
    mkOBJECT_MATERIAL (Glm.mkvec3 0.4 0.4 0.4) 0.3 (Glm.mkvec3 0.3 0.3 0.3)
      (Glm.mkvec3 0.6 0.6 0.6) 85 "glass" in
  let st := push_back glassMaterial st in
  let cheeseMaterial :=
    mkOBJECT_MATERIAL (Glm.mkvec3 0.1 0.1 0.1) 0.2 (Glm.mkvec3 0.5 0.5 0.5)
      (Glm.mkvec3 0.1 0.1 0.1) 0.3 "cheese" in
  let st := push_back cheeseMaterial st in
  let backdropMaterial :=
    mkOBJECT_MATERIAL (Glm.mkvec3 0.6 0.6 0.6) 3 (Glm.mkvec3 0.6 0.5 0.1)
      (Glm.mkvec3 0 0 0) 0 "backdrop" in
  push_back backdropMaterial st.

(** The six writes that describe one light source. *)
Definition light (i : string) (position ambient diffuse specular : Glm.vec3)
    (focalStrength specularIntensity : R) (sh : Shader.ShaderManager)
    : Shader.ShaderManager :=
  let name field := "lightSources[" +:+ i +:+ "]." +:+ field in
  let sh := Shader.setVec3Value (name "position") position sh in
  let sh := Shader.setVec3Value (name "ambientColor") ambient sh in
  let sh := Shader.setVec3Value (name "diffuseColor") diffuse sh in
  let sh := Shader.setVec3Value (name "specularColor") specular sh in
  let sh := Shader.setFloatValue (name "focalStrength") focalStrength sh in
  Shader.setFloatValue (name "specularIntensity") specularIntensity sh.

Definition SetupSceneLights (st : SceneManager) : outcome SceneManager :=
  match m_pShaderManager st with
  | None => Undefined NullDereference
  | Some sh =>
      let sh := Shader.setBoolValue g_UseLightingName true sh in
      let sh := light "0" (Glm.mkvec3 (-2) 8 6) (Glm.mkvec3 0.4 0.4 0.4)
                  (Glm.mkvec3 1.2 1.2 1) (Glm.mkvec3 0.8 0.8 0.8) 16 0.6 sh in
      let sh := light "1" (Glm.mkvec3 4 6 8) (Glm.mkvec3 0.3 0.3 0.3)
                  (Glm.mkvec3 0.8 0.8 0.9) (Glm.mkvec3 0.5 0.5 0.6) 20 0.4 sh in
      let sh := light "2" (Glm.mkvec3 0 10 15) (Glm.mkvec3 0.8 0.8 0.8)
                  (Glm.mkvec3 2 2 1.8) (Glm.mkvec3 0.3 0.3 0.3) 8 0.3 sh in
      Ok (set_shader (Some sh) st)
  end.

Definition PrepareScene (st : SceneManager) : outcome SceneManager :=
  st ← LoadSceneTextures st;
  let st := DefineObjectMaterials st in
  st ← SetupSceneLights st;
  let st := mesh Meshes.LoadBoxMesh st in
  let st := mesh Meshes.LoadPlaneMesh st in
  let st := mesh Meshes.LoadCylinderMesh st in
  let st := mesh Meshes.LoadConeMesh st in
  let st := mesh Meshes.LoadPrismMesh st in
  let st := mesh Meshes.LoadPyramid4Mesh st in
  let st := mesh Meshes.LoadSphereMesh st in
  let st := mesh Meshes.LoadTaperedCylinderMesh st in
  Ok (mesh Meshes.LoadTorusMesh st).

(** *** Scene assembly: one routine per object, each a fixed sequence of
    transform, appearance, material and draw request. *)

Definition RenderBook (st : SceneManager) : outcome SceneManager :=
  let st := SetTransformations (Glm.mkvec3 2.2 0.08 1.5) 0 (-12) 0
              (Glm.mkvec3 (-1.2) 0.59 0.3) st in
  let st := SetShaderColor 1 0.5 0.1 1 st in
  st ← SetShaderMaterial "wood" st;
  let st := mesh Meshes.DrawBoxMesh st in
  let st := SetTransformations (Glm.mkvec3 0.08 0.08 1.5) 0 (-12) 0
              (Glm.mkvec3 (-2.3) 0.59 0.3) st in
  let st := SetShaderColor 0.9 0.4 0.05 1 st in
  st ← SetShaderMaterial "wood" st;
  let st := mesh Meshes.DrawBoxMesh st in
  let st := SetTransformations (Glm.mkvec3 2.15 0.06 1.45) 0 (-12) 0
              (Glm.mkvec3 (-1.2) 0.57 0.3) st in
  let st := SetShaderColor 0.95 0.95 0.9 1 st in
  st ← SetShaderMaterial "wood" st;
  Ok (mesh Meshes.DrawBoxMesh st).

Definition RenderTable (st : SceneManager) : outcome SceneManager :=
  let st := SetTransformations (Glm.mkvec3 20 0.6 8) 0 0 0
              (Glm.mkvec3 0 0.2 (-0.9)) st in
  st ← SetShaderTexture "table" st;
  let st := SetTextureUVScale 1 1 st in
  st ← SetShaderMaterial "wood" st;
  Ok (mesh Meshes.DrawBoxMesh st).

Definition RenderBackdrop (st : SceneManager) : outcome SceneManager :=
  let st := SetTransformations (Glm.mkvec3 20 1 20) 90 0 0
              (Glm.mkvec3 0 15 (-10)) st in
  let st := SetShaderColor 0.75 0.75 0.75 1 st in
  Ok (mesh Meshes.DrawPlaneMesh st).

Definition RenderCheeseWheel (st : SceneManager) : outcome SceneManager :=
  let st := SetTransformations (Glm.mkvec3 1.1 0.8 0.9) 0 0 0
              (Glm.mkvec3 (-1) 1.4 0) st in
  st ← SetShaderTexture "cheese_wheel_side" st;
  let st := SetTextureUVScale 5 1 st in
  st ← SetShaderMaterial "cheese" st;
  let st := mesh (Meshes.DrawCylinderMesh false false true) st in
  st ← SetShaderTexture "cheese_wheel_top" st;
  let st := SetTextureUVScale 1 1 st in
  Ok (mesh (Meshes.DrawCylinderMesh true false false) st).

Definition RenderWineGlass (st : SceneManager) : outcome SceneManager :=
  let st := SetTransformations (Glm.mkvec3 1 2 1) 0 0 0
              (Glm.mkvec3 6 1.5 (-1.5)) st in
  let st := SetShaderColor 0.7 0.7 0.8 0.3 st in
  st ← SetShaderMaterial "glass" st;
  let st := mesh (Meshes.DrawCylinderMesh false false true) st in
  let st := SetTransformations (Glm.mkvec3 1 0.1 1) 0 0 0
              (Glm.mkvec3 6 0.55 (-1.5)) st in
  let st := SetShaderColor 0.7 0.7 0.8 0.3 st in
  st ← SetShaderMaterial "glass" st;
  Ok (mesh (Meshes.DrawCylinderMesh true false false) st).

Definition RenderWineBottle (st : SceneManager) : outcome SceneManager :=
  let st := SetTransformations (Glm.mkvec3 0.9 0.3 0.9) 0 0 180
              (Glm.mkvec3 4 0.9 (-2.6)) st in
  let st := SetShaderColor 0.06 0.07 0.06 1 st in
  st ← SetShaderMaterial "glass" st;
  let st := mesh Meshes.DrawHalfSphereMesh st in
  let st := SetTransformations (Glm.mkvec3 0.9 4 0.9) 0 0 0
              (Glm.mkvec3 4 0.9 (-2.6)) st in
  let st := SetShaderColor 0.06 0.07 0.06 1 st in
  st ← SetShaderMaterial "glass" st;
  let st := mesh (Meshes.DrawCylinderMesh false false true) st in
  let st := SetTransformations (Glm.mkvec3 0.905 0.9 0.905) 0 (-6) 0
              (Glm.mkvec3 4 4.9 (-2.6)) st in
  let st := SetShaderColor 0.06 0.07 0.06 1 st in
  st ← SetShaderMaterial "glass" st;
  let st := mesh Meshes.DrawHalfSphereMesh st in
  let st := SetTransformations (Glm.mkvec3 0.3 2 0.3) 0 0 0
              (Glm.mkvec3 4 5.6 (-2.6)) st in
  let st := SetShaderColor 0.06 0.07 0.06 1 st in
  st ← SetShaderMaterial "glass" st;
  let st := mesh (Meshes.DrawCylinderMesh false false true) st in
  let st := SetTransformations (Glm.mkvec3 0.32 0.32 1.5) 90 0 0
              (Glm.mkvec3 (-1.8) 7.4 (-2.6)) st in
  let st := SetShaderColor 0.06 0.07 0.06 1 st in
  st ← SetShaderMaterial "glass" st;
  let st := mesh Meshes.DrawTorusMesh st in
  let st := SetTransformations (Glm.mkvec3 0.28 0.28 0.4) 90 0 0
              (Glm.mkvec3 (-1.8) 7.6 (-2.6)) st in
  let st := SetShaderColor 0.06 0.07 0.06 1 st in
  st ← SetShaderMaterial "glass" st;
  Ok (mesh Meshes.DrawTorusMesh st).

Definition RenderScene (st : SceneManager) : outcome SceneManager :=
  st ← RenderTable st;
  st ← RenderBackdrop st;
  st ← RenderCheeseWheel st;
  st ← RenderBook st;
  st ← RenderWineGlass st;
  RenderWineBottle st.

(** *** Sequences of loads *)

(** The decoder yields an image for the file and the image has three or
    four channels: the call to CreateGLTexture gets past both tests. *)
Definition usable (filename : string) : bool :=
  match stbi_load filename with
  | Some image => (colorChannels image =? 3) || (colorChannels image =? 4)
  | None => false
  end.

(** The tags of the calls that get past both tests, in call order. *)
Definition accepted_tags (calls : list (string * string)) : list string :=
  snd <$> filter (λ c, usable c.1 = true) calls.

(** CreateGLTexture called once per (file, tag) pair, in order, the
    returned flag dropped as LoadSceneTextures drops it. *)
Fixpoint load_all (calls : list (string * string)) (st : SceneManager)
    : outcome SceneManager :=
  match calls with
  | [] => Ok st
  | (filename, tag) :: rest =>
      bReturn ← CreateGLTexture filename tag st;
      load_all rest bReturn.2
  end.

End Scene.

(** ** Specification vocabulary for the texture registry *)

(** The loaded part of the table: its first [m_loadedTextures] entries. *)
Definition loaded (st : SceneManager) : list TEXTURE_INFO :=
  take (Z.to_nat (m_loadedTextures st)) (m_textureIDs st).

(** First-match scan of a list of slots: position and entry of the first
    one that carries the tag. *)
Definition first_match (tag' : string) (ts : list TEXTURE_INFO)
    : option (nat * TEXTURE_INFO) :=
  list_find (λ t, tag t = tag') ts.

(** No loaded slot carries the tag. *)
Definition unregistered (st : SceneManager) (tag' : string) : Prop :=
  forall i t, 0 <= i < m_loadedTextures st -> slot_at st i = Some t -> tag t <> tag'.

(** Slot [i] holds [t], [t] carries the tag, and no earlier slot does. *)
Definition earliest (st : SceneManager) (tag' : string) (i : Z) (t : TEXTURE_INFO)
    : Prop :=
  0 <= i < m_loadedTextures st /\ slot_at st i = Some t /\ tag t = tag' /\
  forall j u, 0 <= j < i -> slot_at st j = Some u -> tag u <> tag'.

(** The OpenGL calls that bind the slots [ts] to consecutive texture units,
    the first of them to [unit]. *)
Fixpoint bind_calls (unit : Z) (ts : list TEXTURE_INFO) : list GL.call :=
  match ts with
  | [] => []
  | t :: rest =>
      GL.ActiveTexture unit :: GL.BindTexture (ID t) :: bind_calls (unit + 1) rest
  end.

(** The names a driver hands out in [count] consecutive glGenTextures
    calls, each of them asked with the log as it stands when the call is
    made, the first one with [history]. *)
Fixpoint generated (glGenTextures : list GL.call -> Z) (count : nat)
    (history : list GL.call) : list Z :=
  match count with
  | O => []
  | S count =>
      let name := to_uint32 (glGenTextures history) in
      name :: generated glGenTextures count (history ++ [GL.GenTextures name])
  end.

(** The nine (file, tag) pairs of LoadSceneTextures, in call order. *)
Definition scene_textures : list (string * string) :=
  [("../../Utilities/textures/rusticwood.jpg", "table");
   ("../../Utilities/textures/cheese_wheel.jpg", "cheese_wheel_side");
   ("../../Utilities/textures/cheese_top.jpg", "cheese_wheel_top");
   ("../../Utilities/textures/breadcrust.jpg", "breadcrust");
   ("../../Utilities/textures/backdrop.jpg", "backdrop");
   ("../../Utilities/textures/knife_handle.jpg", "knifehandle");
   ("../../Utilities/textures/stainless.jpg", "stainless");
   ("../../Utilities/textures/cheddar.jpg", "cheddar");
   ("../../Utilities/textures/circular-brushed-gold-texture.jpg", "knifescrew")].

(** ** Specification vocabulary for the material registry *)

(** First-match scan of the presets: the first one that carries the tag. *)
Definition first_preset (tag' : string) (ms : list OBJECT_MATERIAL)
    : option (nat * OBJECT_MATERIAL) :=
  list_find (λ m, mtag m = tag') ms.

(** ** Specification vocabulary for the model matrix *)

(** Two vectors agree within [eps] in each of their four coordinates. *)
Definition near (eps : R) (a b : Glm.vec4) : Prop :=
  (Rabs (Glm.x4 a - Glm.x4 b) <= eps /\ Rabs (Glm.y4 a - Glm.y4 b) <= eps /\
   Rabs (Glm.z4 a - Glm.z4 b) <= eps /\ Rabs (Glm.w4 a - Glm.w4 b) <= eps)%R.

(** ** Specification vocabulary for the render routines *)

(** A state in which a render routine can run: the texture table is well
    formed and, if materials are defined, there is a shader manager to
    receive them. *)
Definition renderable (st : SceneManager) : Prop :=
  wf st /\ (m_pShaderManager st = None -> m_objectMaterials st = []).

(** [st'] differs from [st] by the mesh calls [cs] appended to the log of
    the ShapeMeshes object and by writes to the shader manager, if any. *)
Definition drew (cs : list Meshes.call) (st st' : SceneManager) : Prop :=
  m_basicMeshes st' = m_basicMeshes st ++ cs /\
  m_textureIDs st' = m_textureIDs st /\
  m_loadedTextures st' = m_loadedTextures st /\
  m_objectMaterials st' = m_objectMaterials st /\
  (m_pShaderManager st' = None <-> m_pShaderManager st = None).

(** ** Concrete surroundings used to run the code on examples *)
Module Sample.

(** A decoder that finds a 2x2 image with the given channel count in every
    file. *)
Definition decoder (channels : Z) : string -> option Image :=
  fun _ => Some (mkImage 2 2 channels).

(** A driver that names textures 1, 2, 3, ... in the order asked. *)
Definition is_gen (c : GL.call) : bool :=
  match c with GL.GenTextures _ => true | _ => false end.

Definition driver (history : list GL.call) : Z :=
  Z.of_nat (length (filter is_gen history)) + 1.

Definition garbage : OBJECT_MATERIAL :=
  mkOBJECT_MATERIAL (Glm.mkvec3 7 7 7) 7 (Glm.mkvec3 7 7 7) (Glm.mkvec3 7 7 7) 7 "".

(** A scene manager right after construction, with a shader manager that
    has received no write yet, and one constructed on a null pointer. *)
Definition fresh : SceneManager := SceneManager_ctor (Some []).
Definition unbound : SceneManager := SceneManager_ctor None.

(** The state a successful run leaves, or the fresh state. *)
Definition after (run : outcome SceneManager) : SceneManager :=
  match run with Ok st => st | Undefined _ => fresh end.

(** Seventeen distinct (file, tag) pairs. *)
Definition seventeen : list (string * string) :=
  (fun t => ("texture.jpg", t)) <$>
  ["t0"; "t1"; "t2"; "t3"; "t4"; "t5"; "t6"; "t7"; "t8"; "t9"; "t10";
   "t11"; "t12"; "t13"; "t14"; "t15"; "t16"].

(** Two loads under one tag followed by a third under another. *)
Definition collide : SceneManager :=
  after (load_all (decoder 3) driver
           [("a.jpg", "wood"); ("b.jpg", "wood"); ("c.jpg", "table")] fresh).

(** One texture loaded under the tag "table". *)
Definition one_texture : SceneManager :=
  after (load_all (decoder 4) driver [("rusticwood.jpg", "table")] fresh).

(** What DestroyGLTextures leaves of [one_texture]. *)
Definition destroyed : SceneManager :=
  after (DestroyGLTextures driver one_texture).

(** Three loads under three tags. *)
Definition three : list (string * string) :=
  [("rusticwood.jpg", "table"); ("cheese_top.jpg", "cheese"); ("backdrop.jpg", "backdrop")].

(** The state [collide] with a shader manager whose use-texture flag was
    last written as true. *)
Definition textured : SceneManager :=
  set_shader (Some [(g_UseTextureName, Shader.Int 1)]) collide.

(** [collide] after one more accepted load. *)
Definition four : SceneManager :=
  after (load_all (decoder 3) driver [("stainless.jpg", "stainless")] collide).

(** A manager with a shader manager and the five presets of the scene. *)
Definition with_materials : SceneManager := DefineObjectMaterials textured.

(** A manager with the five presets but no shader manager. *)
Definition unbound_with_materials : SceneManager := DefineObjectMaterials unbound.

End Sample.

(** * Theorems *)

(** * Lookups *)

(** Each clause of a loop defined by well-founded recursion comes with the
    equations of the tests that select it; rewriting with them closes the
    one-iteration unfolding of the loop. *)
Ltac loop_equations :=
  repeat match goal with
         | E : _ = _ |- _ => rewrite E
         end;
  reflexivity.

Lemma FindTextureSlot_while_step st tag' textureSlot index bFound :
  FindTextureSlot_while st tag' textureSlot index bFound =
  if (index <? m_loadedTextures st) && negb bFound then
    match slot_at st index with
    | None => Undefined OutOfBounds
    | Some t =>
        if String.eqb (tag t) tag'
        then FindTextureSlot_while st tag' index index true
        else FindTextureSlot_while st tag' textureSlot (index + 1) bFound
    end
  else Ok textureSlot.
Proof.
  funelim (FindTextureSlot_while st tag' textureSlot index bFound);
    loop_equations.
Qed.

Lemma FindTextureID_while_step st tag' textureID index bFound :
  FindTextureID_while st tag' textureID index bFound =
  if (index <? m_loadedTextures st) && negb bFound then
    match slot_at st index with
    | None => Undefined OutOfBounds
    | Some t =>
        if String.eqb (tag t) tag'
        then FindTextureID_while st tag' (to_int (ID t)) index true
        else FindTextureID_while st tag' textureID (index + 1) bFound
    end
  else Ok textureID.
Proof.
  funelim (FindTextureID_while st tag' textureID index bFound);
    loop_equations.
Qed.

Lemma slot_at_loaded st i :
  wf st -> 0 <= i < m_loadedTextures st ->
  exists t, slot_at st i = Some t /\ loaded st !! Z.to_nat i = Some t.
Proof.
  intros [Hlen Hn] Hi. unfold slot_at, loaded, capacity in *.
  destruct (lookup_lt_is_Some_2 (m_textureIDs st) (Z.to_nat i)) as [t Ht]; [lia|].
  exists t. split.
  - replace ((0 <=? i) && (i <? 16)) with true; [done|].
    symmetry. apply andb_true_intro. split; [apply Z.leb_le | apply Z.ltb_lt]; lia.
  - rewrite lookup_take_lt by lia. done.
Qed.

Lemma slot_at_inside st i :
  wf st -> 0 <= i < capacity -> exists t, slot_at st i = Some t.
Proof.
  intros [Hlen Hn] Hi. unfold slot_at, capacity in *.
  destruct (lookup_lt_is_Some_2 (m_textureIDs st) (Z.to_nat i)) as [t Ht]; [lia|].
  exists t.
  replace ((0 <=? i) && (i <? 16)) with true; [done|].
  symmetry. apply andb_true_intro. split; [apply Z.leb_le | apply Z.ltb_lt]; lia.
Qed.

Lemma loaded_length st : wf st -> length (loaded st) = Z.to_nat (m_loadedTextures st).
Proof.
  intros [Hlen Hn]. unfold loaded, capacity in *. rewrite length_take. lia.
Qed.

Lemma FindTextureSlot_while_scan st tag' (k : nat) :
  wf st ->
  forall textureSlot index,
    0 <= index -> Z.to_nat (m_loadedTextures st - index) = k ->
    FindTextureSlot_while st tag' textureSlot index false =
    Ok (match first_match tag' (drop (Z.to_nat index) (loaded st)) with
        | Some (i, _) => index + Z.of_nat i
        | None => textureSlot
        end).
Proof.
  intros Hwf. induction k as [|k IH]; intros textureSlot index Hidx Hk;
    rewrite FindTextureSlot_while_step.
  - replace (index <? m_loadedTextures st) with false
      by (symmetry; apply Z.ltb_ge; lia).
    rewrite drop_ge by (rewrite loaded_length by done; lia). done.
  - replace (index <? m_loadedTextures st) with true
      by (symmetry; apply Z.ltb_lt; lia).
    destruct (slot_at_loaded st index Hwf) as (t & -> & Ht); [lia|]. simpl.
    rewrite (drop_S _ _ _ Ht). unfold first_match. simpl.
    destruct (String.eqb_spec (tag t) tag') as [Heq|Hne].
    + rewrite FindTextureSlot_while_step, andb_false_r.
      rewrite decide_True by done. f_equal. lia.
    + rewrite decide_False by done.
      rewrite IH by lia.
      replace (Z.to_nat (index + 1)) with (S (Z.to_nat index)) by lia.
      fold (first_match tag' (drop (S (Z.to_nat index)) (loaded st))).
      destruct (first_match _ _) as [[i u]|]; simpl; [f_equal; lia | done].
Qed.

Lemma FindTextureID_while_scan st tag' (k : nat) :
  wf st ->
  forall textureID index,
    0 <= index -> Z.to_nat (m_loadedTextures st - index) = k ->
    FindTextureID_while st tag' textureID index false =
    Ok (match first_match tag' (drop (Z.to_nat index) (loaded st)) with
        | Some (_, t) => to_int (ID t)
        | None => textureID
        end).
Proof.
  intros Hwf. induction k as [|k IH]; intros textureID index Hidx Hk;
    rewrite FindTextureID_while_step.
  - replace (index <? m_loadedTextures st) with false
      by (symmetry; apply Z.ltb_ge; lia).
    rewrite drop_ge by (rewrite loaded_length by done; lia). done.
  - replace (index <? m_loadedTextures st) with true
      by (symmetry; apply Z.ltb_lt; lia).
    destruct (slot_at_loaded st index Hwf) as (t & -> & Ht); [lia|]. simpl.
    rewrite (drop_S _ _ _ Ht). unfold first_match. simpl.
    destruct (String.eqb_spec (tag t) tag') as [Heq|Hne].
    + rewrite FindTextureID_while_step, andb_false_r.
      rewrite decide_True by done. done.
    + rewrite decide_False by done.
      rewrite IH by lia.
      replace (Z.to_nat (index + 1)) with (S (Z.to_nat index)) by lia.
      fold (first_match tag' (drop (S (Z.to_nat index)) (loaded st))).
      destruct (first_match _ _) as [[i u]|]; done.
Qed.

(** Both lookups are the first-match scan of the loaded slots. *)
Lemma FindTextureSlot_scan st tag' :
  wf st ->
  FindTextureSlot tag' st =
  Ok (match first_match tag' (loaded st) with
      | Some (i, _) => Z.of_nat i
      | None => -1
      end).
Proof.
  intros Hwf. unfold FindTextureSlot.
  rewrite (FindTextureSlot_while_scan st tag' (Z.to_nat (m_loadedTextures st - 0)) Hwf (-1) 0) by done.
  simpl. destruct (first_match _ _) as [[i u]|]; done.
Qed.

Lemma FindTextureID_scan st tag' :
  wf st ->
  FindTextureID tag' st =
  Ok (match first_match tag' (loaded st) with
      | Some (_, t) => to_int (ID t)
      | None => -1
      end).
Proof.
  intros Hwf. unfold FindTextureID.
  rewrite (FindTextureID_while_scan st tag' (Z.to_nat (m_loadedTextures st - 0)) Hwf (-1) 0) by done.
  reflexivity.
Qed.

Lemma unregistered_scan st tag' :
  wf st -> unregistered st tag' -> first_match tag' (loaded st) = None.
Proof.
  intros Hwf Hun. apply list_find_None, Forall_forall.
  intros t Hin. apply list_elem_of_lookup in Hin as [i Hi].
  pose proof (lookup_lt_Some _ _ _ Hi) as Hlt. rewrite loaded_length in Hlt by done.
  destruct (slot_at_loaded st (Z.of_nat i) Hwf) as (u & Hu & Hl); [lia|].
  rewrite Nat2Z.id in Hl. assert (u = t) as -> by congruence.
  apply (Hun (Z.of_nat i)); [lia|done].
Qed.

Lemma earliest_scan st tag' i t :
  wf st -> earliest st tag' i t ->
  first_match tag' (loaded st) = Some (Z.to_nat i, t).
Proof.
  intros Hwf (Hi & Ht & Htag & Hbefore). apply list_find_Some.
  destruct (slot_at_loaded st i Hwf Hi) as (u & Hu & Hl).
  assert (u = t) as -> by congruence.
  split_and!; [done..|].
  intros j u Hj Hlt.
  destruct (slot_at_loaded st (Z.of_nat j) Hwf) as (u' & Hu' & Hl'); [lia|].
  rewrite Nat2Z.id in Hl'. assert (u' = u) as -> by congruence.
  apply (Hbefore (Z.of_nat j)); [lia|done].
Qed.

(** C6.  For every well-formed registry and every tag, FindTextureSlot and
    FindTextureID are a first-match linear scan of the loaded slots: both
    return a value (no read leaves the table); when no loaded slot carries
    the tag both return -1; and when slot [i] is the earliest loaded slot
    carrying the tag they return [i] and the handle held by slot [i]. *)
Theorem lookup_first_match (st : SceneManager) (tag' : string) :
  wf st ->
  (exists slot handle,
      FindTextureSlot tag' st = Ok slot /\ FindTextureID tag' st = Ok handle) /\
  (unregistered st tag' ->
      FindTextureSlot tag' st = Ok (-1) /\ FindTextureID tag' st = Ok (-1)) /\
  (forall i t, earliest st tag' i t ->
      FindTextureSlot tag' st = Ok i /\ FindTextureID tag' st = Ok (to_int (ID t))).
Proof.
  intros Hwf. rewrite FindTextureSlot_scan, FindTextureID_scan by done.
  split_and!.
  - eauto.
  - intros Hun. by rewrite unregistered_scan.
  - intros i t He. rewrite (earliest_scan _ _ _ _ Hwf He).
    destruct He as [Hi _]. split; f_equal; lia.
Qed.

Lemma lookup_first_match_witness :
  FindTextureSlot "wood" Sample.collide = Ok 0 /\
  FindTextureID "wood" Sample.collide = Ok 1.
Proof.
  assert (Hwf : wf Sample.collide).
  { vm_compute. split; [reflexivity | split; discriminate]. }
  destruct (lookup_first_match Sample.collide "wood" Hwf) as (_ & _ & H).
  apply (H 0 (mkTEXTURE_INFO "wood" 1)).
  unfold earliest. split_and!; [done | done | reflexivity | reflexivity | lia].
Defined.

(** * Loading *)
Section Loading.

Variable stbi_load : string -> option Image.
Variable glGenTextures : list GL.call -> Z.

Local Abbreviation CreateGLTexture := (CreateGLTexture stbi_load glGenTextures).
Local Abbreviation load_all := (load_all stbi_load glGenTextures).
Local Abbreviation usable := (usable stbi_load).

(** A call that does not get past the decoder or the channel test returns
    false and leaves both the table and the count as they were. *)
Lemma CreateGLTexture_rejected filename tag' st :
  usable filename = false ->
  exists st', CreateGLTexture filename tag' st = Ok (false, st') /\
    m_textureIDs st' = m_textureIDs st /\
    m_loadedTextures st' = m_loadedTextures st /\
    m_pShaderManager st' = m_pShaderManager st /\
    m_objectMaterials st' = m_objectMaterials st /\
    m_basicMeshes st' = m_basicMeshes st.
Proof.
  unfold usable, CreateGLTexture. intros Hu.
  destruct (stbi_load filename) as [image|]; [|by eauto 10].
  apply orb_false_elim in Hu as [-> ->]. by eauto 10.
Qed.

(** A call that gets past both tests stores the new name and the tag in
    slot [m_loadedTextures] and increments the count, provided that slot
    exists. *)
Lemma CreateGLTexture_accepted filename tag' st :
  usable filename = true -> wf st -> m_loadedTextures st < capacity ->
  exists st',
    CreateGLTexture filename tag' st = Ok (true, st') /\
    m_textureIDs st' =
      <[Z.to_nat (m_loadedTextures st) :=
          mkTEXTURE_INFO tag' (to_uint32 (glGenTextures (gl_calls st)))]>
        (m_textureIDs st) /\
    m_loadedTextures st' = m_loadedTextures st + 1 /\
    m_pShaderManager st' = m_pShaderManager st /\
    m_objectMaterials st' = m_objectMaterials st /\
    m_basicMeshes st' = m_basicMeshes st.
Proof.
  unfold usable, CreateGLTexture. intros Hu Hwf Hn.
  destruct (stbi_load filename) as [image|]; [|done].
  assert (Hreg : forall cs,
    exists st',
      register_texture (to_uint32 (glGenTextures (gl_calls st))) tag' (gl cs st)
        = Ok (true, st') /\
      m_textureIDs st' =
        <[Z.to_nat (m_loadedTextures st) :=
            mkTEXTURE_INFO tag' (to_uint32 (glGenTextures (gl_calls st)))]>
          (m_textureIDs st) /\
      m_loadedTextures st' = m_loadedTextures st + 1 /\
      m_pShaderManager st' = m_pShaderManager st /\
      m_objectMaterials st' = m_objectMaterials st /\
      m_basicMeshes st' = m_basicMeshes st).
  { intros cs. unfold register_texture.
    destruct (slot_at_inside st (m_loadedTextures st)) as [t Ht]; [done|destruct Hwf; lia|].
    unfold slot_at in *. simpl in *. rewrite Ht. by eauto 10. }
  destruct (colorChannels image =? 3).
  - destruct (Hreg ([GL.GenTextures (to_uint32 (glGenTextures (gl_calls st)));
                     GL.BindTexture (to_uint32 (glGenTextures (gl_calls st)));
                     GL.TexParameteri GL.TEXTURE_WRAP_S GL.REPEAT;
                     GL.TexParameteri GL.TEXTURE_WRAP_T GL.REPEAT;
                     GL.TexParameteri GL.TEXTURE_MIN_FILTER GL.LINEAR;
                     GL.TexParameteri GL.TEXTURE_MAG_FILTER GL.LINEAR]
                    ++ [GL.TexImage2D GL.RGB8_RGB (width image) (height image)]))
      as (st' & H & ?).
    exists st'. split; [|done]. rewrite <- H. unfold gl. simpl. by rewrite <- app_assoc.
  - simpl in Hu. rewrite Hu.
    destruct (Hreg ([GL.GenTextures (to_uint32 (glGenTextures (gl_calls st)));
                     GL.BindTexture (to_uint32 (glGenTextures (gl_calls st)));
                     GL.TexParameteri GL.TEXTURE_WRAP_S GL.REPEAT;
                     GL.TexParameteri GL.TEXTURE_WRAP_T GL.REPEAT;
                     GL.TexParameteri GL.TEXTURE_MIN_FILTER GL.LINEAR;
                     GL.TexParameteri GL.TEXTURE_MAG_FILTER GL.LINEAR]
                    ++ [GL.TexImage2D GL.RGBA8_RGBA (width image) (height image)]))
      as (st' & H & ?).
    exists st'. split; [|done]. rewrite <- H. unfold gl. simpl. by rewrite <- app_assoc.
Qed.

Local Abbreviation accepted_tags := (accepted_tags stbi_load).

Lemma accepted_tags_cons filename tag' calls :
  accepted_tags ((filename, tag') :: calls) =
  if usable filename then tag' :: accepted_tags calls else accepted_tags calls.
Proof.
  unfold accepted_tags. rewrite filter_cons. simpl.
  destruct (usable filename) eqn:E.
  - by rewrite decide_True.
  - by rewrite decide_False.
Qed.

Lemma load_all_app pre post st :
  load_all (pre ++ post) st = (load_all pre st ≫= load_all post).
Proof.
  revert st. induction pre as [|[f t] pre IH]; intros st; simpl; [done|].
  destruct (CreateGLTexture f t st) as [[b st1]|]; simpl; [apply IH | done].
Qed.

(** Running a sequence of calls that fits in the table: every call returns,
    the count grows by the number of accepted calls, the slots that were
    loaded before keep their contents, and the tags of the loaded slots are
    extended by the accepted tags in call order. *)
Lemma load_all_fits calls :
  forall st,
    wf st ->
    m_loadedTextures st + Z.of_nat (length (accepted_tags calls)) <= capacity ->
    exists st',
      load_all calls st = Ok st' /\ wf st' /\
      m_loadedTextures st' =
        m_loadedTextures st + Z.of_nat (length (accepted_tags calls)) /\
      take (Z.to_nat (m_loadedTextures st)) (m_textureIDs st') = loaded st /\
      tag <$> loaded st' = (tag <$> loaded st) ++ accepted_tags calls.
Proof.
  induction calls as [|[f t] calls IH]; intros st Hwf Hfit.
  - exists st. simpl. unfold accepted_tags. simpl.
    split_and!; [done | done | lia | done | by rewrite app_nil_r].
  - rewrite accepted_tags_cons in *. simpl.
    destruct (usable f) eqn:Hu.
    + simpl in Hfit.
      destruct (CreateGLTexture_accepted f t st Hu Hwf) as (st1 & -> & Hts & Hn & _);
        [lia|].
      assert (Hwf1 : wf st1).
      { destruct Hwf as [Hlen Hr]. split; [by rewrite Hts, length_insert | lia]. }
      assert (Hloaded1 : loaded st1 = loaded st ++ [mkTEXTURE_INFO t
                (to_uint32 (glGenTextures (gl_calls st)))]).
      { unfold loaded. rewrite Hn, Hts.
        replace (Z.to_nat (m_loadedTextures st + 1))
          with (S (Z.to_nat (m_loadedTextures st))) by (destruct Hwf; lia).
        destruct Hwf as [Hlen Hr]. unfold capacity in *.
        destruct (lookup_lt_is_Some_2 (m_textureIDs st)
                    (Z.to_nat (m_loadedTextures st))) as [u Hu']; [lia|].
        erewrite take_S_r; [|by rewrite list_lookup_insert_eq by lia].
        by rewrite take_insert_ge by lia. }
      destruct (IH st1 Hwf1) as (st' & Hrun & Hwf' & Hn' & Hkeep & Htags);
        [rewrite Hn; lia|].
      exists st'. simpl. split_and!; [done | done | rewrite Hn', Hn; lia | |].
      * rewrite Hn in Hkeep.
        replace (Z.to_nat (m_loadedTextures st + 1))
          with (S (Z.to_nat (m_loadedTextures st))) in Hkeep by (destruct Hwf; lia).
        apply (f_equal (take (Z.to_nat (m_loadedTextures st)))) in Hkeep.
        rewrite take_take in Hkeep. rewrite Nat.min_l in Hkeep by lia.
        rewrite Hkeep, Hloaded1.
        rewrite take_app_le by (rewrite loaded_length by done; lia).
        apply take_ge. rewrite loaded_length by done. lia.
      * rewrite Htags, Hloaded1, fmap_app, <- app_assoc. done.
    + destruct (CreateGLTexture_rejected f t st Hu) as (st1 & -> & Hts & Hn & _).
      assert (Hwf1 : wf st1) by (unfold wf; by rewrite Hts, Hn).
      assert (Hloaded1 : loaded st1 = loaded st) by (unfold loaded; by rewrite Hts, Hn).
      destruct (IH st1 Hwf1) as (st' & Hrun & Hwf' & Hn' & Hkeep & Htags);
        [rewrite Hn; lia|].
      exists st'. simpl. rewrite <- Hloaded1, <- Hn.
      split_and!; done.
Qed.

Lemma wf_ctor sh : wf (SceneManager_ctor sh).
Proof. split; [reflexivity | simpl; unfold capacity; lia]. Qed.

(** C4.  Take any sequence of CreateGLTexture calls on a freshly
    constructed scene manager in which the accepted calls (decodable image
    with 3 or 4 channels) carry distinct tags and fit in the table.  For
    any accepted call of the sequence, once the whole sequence has run,
    FindTextureSlot with its tag returns the number of accepted calls that
    came before it, and FindTextureID returns the name that this very call
    stored in its slot. *)
Theorem load_then_find (sh : option Shader.ShaderManager)
    (calls pre post : list (string * string)) (filename tag' : string) :
  NoDup (accepted_tags calls) ->
  Z.of_nat (length (accepted_tags calls)) <= capacity ->
  calls = pre ++ (filename, tag') :: post ->
  usable filename = true ->
  exists st1 st2 st' handle,
    load_all pre (SceneManager_ctor sh) = Ok st1 /\
    CreateGLTexture filename tag' st1 = Ok (true, st2) /\
    handle = to_uint32 (glGenTextures (gl_calls st1)) /\
    slot_at st2 (m_loadedTextures st1) = Some (mkTEXTURE_INFO tag' handle) /\
    load_all post st2 = Ok st' /\
    load_all calls (SceneManager_ctor sh) = Ok st' /\
    FindTextureSlot tag' st' = Ok (Z.of_nat (length (accepted_tags pre))) /\
    FindTextureID tag' st' = Ok (to_int handle).
Proof.
  intros Hnodup Hfit -> Hu.
  assert (Htags : accepted_tags (pre ++ (filename, tag') :: post) =
                  accepted_tags pre ++ tag' :: accepted_tags post).
  { unfold accepted_tags. rewrite filter_app, filter_cons, fmap_app. simpl.
    by rewrite decide_True. }
  rewrite Htags in Hnodup, Hfit. rewrite length_app in Hfit. simpl in Hfit.
  apply NoDup_app in Hnodup as (_ & Hfresh & _).
  set (k := length (accepted_tags pre)) in *.
  (* the calls before *)
  destruct (load_all_fits pre (SceneManager_ctor sh) (wf_ctor sh))
    as (st1 & Hrun1 & Hwf1 & Hn1 & _ & Htags1); [simpl; lia|].
  simpl in Hn1, Htags1. fold k in Hn1.
  (* the call itself *)
  destruct (CreateGLTexture_accepted filename tag' st1 Hu Hwf1)
    as (st2 & Hrun2 & Hts2 & Hn2 & _); [lia|].
  set (handle := to_uint32 (glGenTextures (gl_calls st1))) in *.
  assert (Hwf2 : wf st2).
  { destruct Hwf1 as [Hlen Hr]. split; [by rewrite Hts2, length_insert | lia]. }
  assert (Hslot2 : m_textureIDs st2 !! k = Some (mkTEXTURE_INFO tag' handle)).
  { rewrite Hts2, Hn1. replace (Z.to_nat (0 + Z.of_nat k)) with k by lia.
    apply list_lookup_insert_eq. destruct Hwf1 as [Hlen _]. rewrite Hlen.
    unfold capacity in *. lia. }
  (* the calls after *)
  destruct (load_all_fits post st2 Hwf2)
    as (st' & Hrun3 & Hwf' & Hn' & Hkeep & _); [lia|].
  assert (Hpre : forall j, (j < S k)%nat -> loaded st' !! j = m_textureIDs st2 !! j).
  { intros j Hj. unfold loaded in *.
    rewrite lookup_take_lt by lia.
    rewrite <- (lookup_take_lt (m_textureIDs st') (Z.to_nat (m_loadedTextures st2)))
      by lia.
    rewrite Hkeep. apply lookup_take_lt. lia. }
  assert (Hfirst : first_match tag' (loaded st') =
                   Some (k, mkTEXTURE_INFO tag' handle)).
  { apply list_find_Some. split_and!.
    - rewrite Hpre by lia. done.
    - done.
    - intros j y Hy Hj Htag. rewrite Hpre in Hy by lia.
      rewrite Hts2, list_lookup_insert_ne in Hy by lia.
      assert (Hin : tag y ∈ tag <$> loaded st1).
      { apply list_elem_of_fmap. exists y. split; [done|].
        apply list_elem_of_lookup. exists j. unfold loaded.
        rewrite lookup_take_lt by lia. done. }
      rewrite Htags1 in Hin. apply (Hfresh (tag y)); [done|].
      rewrite Htag. apply list_elem_of_here. }
  exists st1, st2, st', handle. split_and!; try done.
  - unfold slot_at. rewrite Hn1.
    replace ((0 <=? 0 + Z.of_nat k) && (0 + Z.of_nat k <? capacity)) with true.
    + by replace (Z.to_nat (0 + Z.of_nat k)) with k by lia.
    + symmetry. apply andb_true_intro.
      split; [apply Z.leb_le | apply Z.ltb_lt]; lia.
  - rewrite load_all_app, Hrun1. simpl. by rewrite Hrun2.
  - rewrite FindTextureSlot_scan by done. by rewrite Hfirst.
  - rewrite FindTextureID_scan by done. by rewrite Hfirst.
Qed.

(** C5.  For every image whose channel count is neither 3 nor 4,
    CreateGLTexture returns false and leaves [m_loadedTextures] and every
    entry of [m_textureIDs] as they were. *)
Theorem CreateGLTexture_unsupported_channels
    (filename tag' : string) (image : Image) (st : SceneManager) :
  stbi_load filename = Some image ->
  colorChannels image <> 3 -> colorChannels image <> 4 ->
  exists st',
    CreateGLTexture filename tag' st = Ok (false, st') /\
    m_loadedTextures st' = m_loadedTextures st /\
    m_textureIDs st' = m_textureIDs st.
Proof.
  intros Himg H3 H4.
  destruct (CreateGLTexture_rejected filename tag' st) as (st' & Hrun & Hts & Hn & _).
  - unfold usable. rewrite Himg. apply orb_false_intro; by apply Z.eqb_neq.
  - by exists st'.
Qed.

(** With the table full, an accepted image is not turned away: the stores
    go to [m_textureIDs[16]]. *)
Lemma CreateGLTexture_full filename tag' st :
  usable filename = true -> m_loadedTextures st = capacity ->
  CreateGLTexture filename tag' st = Undefined OutOfBounds.
Proof.
  unfold usable, CreateGLTexture. intros Hu Hn.
  destruct (stbi_load filename) as [image|]; [|done].
  assert (Hreg : forall h st0, m_loadedTextures st0 = capacity ->
            register_texture h tag' st0 = Undefined OutOfBounds).
  { intros h st0 Hn0. unfold register_texture, slot_at. simpl. rewrite Hn0. done. }
  destruct (colorChannels image =? 3); [by apply Hreg|].
  simpl in Hu. rewrite Hu. by apply Hreg.
Qed.

(** *** Destruction *)

Lemma DestroyGLTextures_body_keeps i st :
  wf st -> 0 <= i < capacity ->
  exists st',
    DestroyGLTextures_body glGenTextures i st = Ok st' /\ wf st' /\
    m_loadedTextures st' = m_loadedTextures st /\
    tag <$> m_textureIDs st' = tag <$> m_textureIDs st.
Proof.
  intros Hwf Hi. unfold DestroyGLTextures_body.
  destruct (slot_at_inside st i Hwf Hi) as [t Ht]. rewrite Ht.
  eexists. split; [reflexivity|]. simpl. split_and!.
  - destruct Hwf as [Hlen Hr]. split; [|done]. simpl. by rewrite length_insert.
  - done.
  - rewrite list_fmap_insert. simpl.
    apply list_insert_id. rewrite list_lookup_fmap.
    unfold slot_at in Ht. destruct (_ && _); [|done]. by rewrite Ht.
Qed.

Lemma DestroyGLTextures_loop (count : nat) :
  forall i st,
    wf st -> 0 <= i -> i + Z.of_nat count <= capacity ->
    exists st',
      for_range count i (DestroyGLTextures_body glGenTextures) st = Ok st' /\
      m_loadedTextures st' = m_loadedTextures st /\
      tag <$> m_textureIDs st' = tag <$> m_textureIDs st.
Proof.
  induction count as [|count IH]; intros i st Hwf Hi Hfit; cbn [for_range].
  - by exists st.
  - destruct (DestroyGLTextures_body_keeps i st Hwf) as (st1 & -> & Hwf1 & Hn1 & Htags1);
      [lia|].
    destruct (IH (i + 1) st1 Hwf1) as (st' & Hrun & Hn & Htags'); [lia..|].
    exists st'. split_and!; [done | by rewrite Hn | by rewrite Htags'].
Qed.

Lemma first_match_index tag' (l1 l2 : list TEXTURE_INFO) :
  tag <$> l1 = tag <$> l2 ->
  fst <$> first_match tag' l1 = fst <$> first_match tag' l2.
Proof.
  unfold first_match. revert l2.
  induction l1 as [|a l1 IH]; intros [|b l2] Heq; simplify_eq/=; [done|].
  repeat case_decide; try congruence; [done|].
  rewrite <- !option_fmap_compose. simpl.
  specialize (IH l2 ltac:(done)).
  destruct (list_find _ l1) as [[? ?]|], (list_find _ l2) as [[? ?]|];
    simplify_eq/=; done.
Qed.

(** C3, as amended.  DestroyGLTextures on a well-formed registry returns
    and leaves the slot count and every slot's tag as they were, so
    FindTextureSlot answers every tag as it did before; for a tag that
    resolved before, FindTextureID returns the handle its slot holds after
    the call. *)
Theorem DestroyGLTextures_keeps_slots (st : SceneManager) :
  wf st ->
  exists st',
    DestroyGLTextures glGenTextures st = Ok st' /\
    m_loadedTextures st' = m_loadedTextures st /\
    tag <$> m_textureIDs st' = tag <$> m_textureIDs st /\
    forall tag',
      FindTextureSlot tag' st' = FindTextureSlot tag' st /\
      forall i, FindTextureSlot tag' st = Ok i -> i <> -1 ->
        exists t, slot_at st' i = Some t /\
                  FindTextureID tag' st' = Ok (to_int (ID t)).
Proof.
  intros Hwf. unfold DestroyGLTextures, for_upto.
  destruct (DestroyGLTextures_loop (Z.to_nat (m_loadedTextures st)) 0 st Hwf)
    as (st' & Hrun & Hn & Htags); [lia | destruct Hwf; lia |].
  assert (Hwf' : wf st').
  { destruct Hwf as [Hlen Hr]. split; [|by rewrite Hn].
    rewrite <- Hlen, <- (length_fmap tag (m_textureIDs st')), Htags.
    apply length_fmap. }
  assert (Hidx : forall tag',
    fst <$> first_match tag' (loaded st') = fst <$> first_match tag' (loaded st)).
  { intros tag'. apply first_match_index. unfold loaded.
    by rewrite !fmap_take, Hn, Htags. }
  exists st'. split_and!; try done. intros tag'.
  assert (Hsame : FindTextureSlot tag' st' = FindTextureSlot tag' st).
  { rewrite !FindTextureSlot_scan by done. specialize (Hidx tag').
    destruct (first_match tag' (loaded st')) as [[i t]|],
             (first_match tag' (loaded st)) as [[j u]|]; simplify_eq/=; done. }
  split; [done|]. intros i Hslot Hi. rewrite <- Hsame in Hslot.
  rewrite FindTextureSlot_scan in Hslot by done.
  rewrite FindTextureID_scan by done.
  destruct (first_match tag' (loaded st')) as [[j t]|] eqn:Hfm; [|congruence].
  injection Hslot as <-. exists t. split; [|done].
  apply list_find_Some in Hfm as (Hj & _).
  pose proof (lookup_lt_Some _ _ _ Hj) as Hlt. rewrite loaded_length in Hlt by done.
  destruct (slot_at_loaded st' (Z.of_nat j) Hwf') as (u & Hu & Hl); [lia|].
  rewrite Nat2Z.id in Hl. congruence.
Qed.

End Loading.

Lemma load_then_find_witness :
  FindTextureSlot "cheese"
    (Sample.after (load_all (Sample.decoder 3) Sample.driver Sample.three Sample.fresh))
    = Ok 1 /\
  FindTextureID "cheese"
    (Sample.after (load_all (Sample.decoder 3) Sample.driver Sample.three Sample.fresh))
    = Ok 2.
Proof.
  destruct (load_then_find (Sample.decoder 3) Sample.driver (Some []) Sample.three
              [("rusticwood.jpg", "table")] [("backdrop.jpg", "backdrop")]
              "cheese_top.jpg" "cheese")
    as (st1 & st2 & st' & handle & Hpre & _ & Hhandle & _ & _ & Hrun & Hslot & Hid).
  - change (NoDup ["table"; "cheese"; "backdrop"]).
    apply (bool_decide_unpack _). vm_compute. exact I.
  - vm_compute. discriminate.
  - reflexivity.
  - reflexivity.
  - unfold Sample.fresh. rewrite Hrun. simpl Sample.after. split; [exact Hslot|].
    rewrite Hid, Hhandle. vm_compute in Hpre. injection Hpre as <-. reflexivity.
Defined.

Lemma CreateGLTexture_unsupported_channels_witness :
  exists st',
    CreateGLTexture (Sample.decoder 1) Sample.driver "mask.png" "mask" Sample.collide
      = Ok (false, st') /\
    m_loadedTextures st' = 3 /\
    m_textureIDs st' = m_textureIDs Sample.collide.
Proof.
  apply (CreateGLTexture_unsupported_channels (Sample.decoder 1) Sample.driver
           "mask.png" "mask" (mkImage 2 2 1) Sample.collide);
    [reflexivity | discriminate | discriminate].
Defined.

(** C9.  The code at seventeen accepted loads: sixteen of them fill the
    table, and the seventeenth is not turned away with a false result but
    stores into [m_textureIDs[16]], past the end of the array.  The same
    happens when the nine loads of LoadSceneTextures are run a second time
    on one scene manager. *)
Theorem seventeenth_load_overruns :
  let sixteen := take 16 Sample.seventeen in
  let full := Sample.after (load_all (Sample.decoder 3) Sample.driver sixteen Sample.fresh) in
  load_all (Sample.decoder 3) Sample.driver sixteen Sample.fresh = Ok full /\
  m_loadedTextures full = capacity /\
  CreateGLTexture (Sample.decoder 3) Sample.driver "texture.jpg" "t16" full
    = Undefined OutOfBounds /\
  load_all (Sample.decoder 3) Sample.driver Sample.seventeen Sample.fresh
    = Undefined OutOfBounds /\
  let once := Sample.after (LoadSceneTextures (Sample.decoder 3) Sample.driver Sample.fresh) in
  LoadSceneTextures (Sample.decoder 3) Sample.driver Sample.fresh = Ok once /\
  m_loadedTextures once = 9 /\
  LoadSceneTextures (Sample.decoder 3) Sample.driver once = Undefined OutOfBounds.
Proof. vm_compute. done. Qed.

Lemma DestroyGLTextures_keeps_slots_witness :
  exists st',
    DestroyGLTextures Sample.driver Sample.one_texture = Ok st' /\
    m_loadedTextures st' = 1 /\
    FindTextureSlot "table" st' = Ok 0.
Proof.
  destruct (DestroyGLTextures_keeps_slots Sample.driver Sample.one_texture)
    as (st' & Hrun & Hn & _ & Hfind).
  - vm_compute. split; [reflexivity | split; discriminate].
  - exists st'. split_and!; [exact Hrun | exact Hn |].
    destruct (Hfind "table") as [-> _]. reflexivity.
Defined.

(** C3, as first stated, does not hold: with one texture loaded under
    "table", after DestroyGLTextures the tag still resolves to slot 0 and
    to a handle, neither of which is -1. *)
Lemma destroyed_tag_still_found :
  FindTextureSlot "table" Sample.one_texture = Ok 0 /\
  DestroyGLTextures Sample.driver Sample.one_texture = Ok Sample.destroyed /\
  FindTextureSlot "table" Sample.destroyed = Ok 0 /\
  FindTextureID "table" Sample.destroyed = Ok 2 /\
  FindTextureSlot "table" Sample.destroyed <> Ok (-1) /\
  FindTextureID "table" Sample.destroyed <> Ok (-1).
Proof. vm_compute. split_and!; done. Qed.

(** * The shader bridge *)

Lemma uniform_set_eq sh name v :
  Shader.uniform (Shader.set name v sh) name = Some v.
Proof.
  unfold Shader.set. induction sh as [|[n w] sh IH]; simpl.
  - by rewrite String.eqb_refl.
  - by rewrite IH.
Qed.

Lemma uniform_set_ne sh name other v :
  name <> other ->
  Shader.uniform (Shader.set name v sh) other = Shader.uniform sh other.
Proof.
  intros Hne. unfold Shader.set. induction sh as [|[n w] sh IH]; simpl.
  - by apply String.eqb_neq in Hne as ->.
  - by rewrite IH.
Qed.

(** C7.  Whatever the shader manager held before, after SetShaderColor
    the use-texture flag is 0 and the color uniform holds the given color;
    after SetShaderTexture the flag is 1 and the sampler uniform holds the
    slot index FindTextureSlot resolves the tag to. *)
Theorem color_and_texture_set_the_flag
    (st : SceneManager) (sh : Shader.ShaderManager) :
  m_pShaderManager st = Some sh -> wf st ->
  (forall r g b a, exists sh',
      m_pShaderManager (SetShaderColor r g b a st) = Some sh' /\
      Shader.uniform sh' g_UseTextureName = Some (Shader.Int 0) /\
      Shader.uniform sh' g_ColorValueName = Some (Shader.Vec4 (Glm.mkvec4 r g b a))) /\
  (forall textureTag, exists st' sh' slot,
      SetShaderTexture textureTag st = Ok st' /\
      m_pShaderManager st' = Some sh' /\
      FindTextureSlot textureTag st = Ok slot /\
      Shader.uniform sh' g_UseTextureName = Some (Shader.Int 1) /\
      Shader.uniform sh' g_TextureValueName = Some (Shader.Sampler2D slot)).
Proof.
  intros Hsh Hwf. split.
  - intros r g b a. unfold SetShaderColor. rewrite Hsh. eexists.
    split; [reflexivity|]. split.
    + unfold Shader.setVec4Value. rewrite uniform_set_ne by done.
      apply uniform_set_eq.
    + apply uniform_set_eq.
  - intros textureTag. unfold SetShaderTexture. rewrite Hsh.
    rewrite FindTextureSlot_scan by done. simpl.
    eexists _, _, _. split_and!; [reflexivity | reflexivity | reflexivity | |].
    + unfold Shader.setSampler2DValue. rewrite uniform_set_ne by done.
      apply uniform_set_eq.
    + apply uniform_set_eq.
Qed.

Lemma color_and_texture_set_the_flag_witness :
  (exists sh',
      m_pShaderManager (SetShaderColor 1 0 0 1 Sample.textured) = Some sh' /\
      Shader.uniform sh' g_UseTextureName = Some (Shader.Int 0)) /\
  (exists st' sh',
      SetShaderTexture "table" (SetShaderColor 1 0 0 1 Sample.textured) = Ok st' /\
      m_pShaderManager st' = Some sh' /\
      Shader.uniform sh' g_UseTextureName = Some (Shader.Int 1) /\
      Shader.uniform sh' g_TextureValueName = Some (Shader.Sampler2D 2)).
Proof.
  split.
  - destruct (color_and_texture_set_the_flag Sample.textured
                [(g_UseTextureName, Shader.Int 1)]) as [H _];
      [reflexivity | split; [reflexivity | vm_compute; split; discriminate] |].
    destruct (H 1 0 0 1)%R as (sh' & ? & ? & ?). eauto.
  - destruct (color_and_texture_set_the_flag (SetShaderColor 1 0 0 1 Sample.textured)
                (Shader.setVec4Value g_ColorValueName (Glm.mkvec4 1 0 0 1)
                   (Shader.setIntValue g_UseTextureName 0
                      [(g_UseTextureName, Shader.Int 1)]))) as [_ H];
      [reflexivity | split; [reflexivity | vm_compute; split; discriminate] |].
    destruct (H "table") as (st' & sh' & slot & ? & ? & Hslot & ? & ?).
    assert (slot = 2) as -> by (vm_compute in Hslot; congruence).
    eauto 10.
Defined.

(** C10.  With a null [m_pShaderManager], SetTransformations,
    SetShaderColor, SetShaderTexture and SetTextureUVScale return normally
    and leave the whole state, hence every uniform, untouched. *)
Theorem null_shader_manager_is_guarded (st : SceneManager) :
  m_pShaderManager st = None ->
  (forall scaleXYZ rx ry rz positionXYZ,
      SetTransformations scaleXYZ rx ry rz positionXYZ st = st) /\
  (forall r g b a, SetShaderColor r g b a st = st) /\
  (forall textureTag, SetShaderTexture textureTag st = Ok st) /\
  (forall u v, SetTextureUVScale u v st = st).
Proof.
  intros Hnull.
  unfold SetTransformations, SetShaderColor, SetShaderTexture, SetTextureUVScale.
  rewrite Hnull. done.
Qed.

Lemma null_shader_manager_is_guarded_witness :
  SetTransformations (Glm.mkvec3 2 1 1) 0 90 0 (Glm.mkvec3 0 0 0) Sample.unbound
    = Sample.unbound /\
  SetShaderColor 1 0 0 1 Sample.unbound = Sample.unbound /\
  SetShaderTexture "table" Sample.unbound = Ok Sample.unbound /\
  SetTextureUVScale 1 1 Sample.unbound = Sample.unbound.
Proof.
  destruct (null_shader_manager_is_guarded Sample.unbound) as (H1 & H2 & H3 & H4);
    [reflexivity|].
  split_and!; [apply H1 | apply H2 | apply H3 | apply H4].
Defined.

(** * Materials *)

Lemma FindMaterial_while_step st tag' material index bFound :
  FindMaterial_while st tag' material index bFound =
  if (index <? Z.of_nat (length (m_objectMaterials st))) && negb bFound then
    match m_objectMaterials st !! Z.to_nat index with
    | None => Undefined OutOfBounds
    | Some m =>
        if String.eqb (mtag m) tag'
        then FindMaterial_while st tag' (copy_material m material) index true
        else FindMaterial_while st tag' material (index + 1) bFound
    end
  else Ok material.
Proof.
  funelim (FindMaterial_while st tag' material index bFound);
    loop_equations.
Qed.

(** The loop of FindMaterial never reads outside the vector. *)
Lemma FindMaterial_while_returns st tag' (k : nat) :
  forall material index,
    0 <= index ->
    Z.to_nat (Z.of_nat (length (m_objectMaterials st)) - index) = k ->
    exists material',
      FindMaterial_while st tag' material index false = Ok material'.
Proof.
  induction k as [|k IH]; intros material index Hidx Hk;
    rewrite FindMaterial_while_step.
  - replace (index <? _) with false by (symmetry; apply Z.ltb_ge; lia).
    by eexists.
  - replace (index <? _) with true by (symmetry; apply Z.ltb_lt; lia).
    destruct (lookup_lt_is_Some_2 (m_objectMaterials st) (Z.to_nat index))
      as [m ->]; [lia|]. simpl.
    destruct (String.eqb (mtag m) tag').
    + rewrite FindMaterial_while_step, andb_false_r. by eexists.
    + apply IH; lia.
Qed.

(** When no preset carries the tag the loop runs to the end and the
    caller's [material] is never assigned. *)
Lemma FindMaterial_while_miss st tag' material (k : nat) :
  Forall (λ m, mtag m <> tag') (m_objectMaterials st) ->
  forall index,
    0 <= index ->
    Z.to_nat (Z.of_nat (length (m_objectMaterials st)) - index) = k ->
    FindMaterial_while st tag' material index false = Ok material.
Proof.
  intros Hmiss. induction k as [|k IH]; intros index Hidx Hk;
    rewrite FindMaterial_while_step.
  - by replace (index <? _) with false by (symmetry; apply Z.ltb_ge; lia).
  - replace (index <? _) with true by (symmetry; apply Z.ltb_lt; lia).
    destruct (lookup_lt_is_Some_2 (m_objectMaterials st) (Z.to_nat index))
      as [m Hm]; [lia|]. rewrite Hm. simpl.
    pose proof (Forall_lookup_1 _ _ _ _ Hmiss Hm) as Hne. simpl in Hne.
    apply String.eqb_neq in Hne as ->. apply IH; lia.
Qed.

Lemma FindMaterial_returns tag' material st :
  exists found, FindMaterial tag' material st = Ok found.
Proof.
  unfold FindMaterial. destruct (_ =? 0); [by eexists|].
  destruct (FindMaterial_while_returns st tag' _ material 0 ltac:(done) eq_refl)
    as [material' ->].
  by eexists.
Qed.

Section Materials.

Variable indeterminate : OBJECT_MATERIAL.

Local Abbreviation SetShaderMaterial := (SetShaderMaterial indeterminate).

(** With no preset defined SetShaderMaterial returns at once. *)
Lemma SetShaderMaterial_empty tag' st :
  m_objectMaterials st = [] -> SetShaderMaterial tag' st = Ok st.
Proof. unfold SetShaderMaterial. by intros ->. Qed.

(** With presets defined and none of them carrying the tag, FindMaterial
    answers true and SetShaderMaterial writes the five material uniforms
    from its unassigned local. *)
Lemma SetShaderMaterial_miss tag' st sh :
  m_objectMaterials st <> [] ->
  Forall (λ m, mtag m <> tag') (m_objectMaterials st) ->
  m_pShaderManager st = Some sh ->
  FindMaterial tag' indeterminate st = Ok (true, indeterminate) /\
  SetShaderMaterial tag' st =
    Ok (set_shader (Some (write_material indeterminate sh)) st).
Proof.
  intros Hne Hmiss Hsh.
  assert (Hlen : Z.of_nat (length (m_objectMaterials st)) > 0).
  { destruct (m_objectMaterials st); [done | simpl; lia]. }
  assert (Hfind : FindMaterial tag' indeterminate st = Ok (true, indeterminate)).
  { unfold FindMaterial.
    replace (_ =? 0) with false by (symmetry; apply Z.eqb_neq; lia).
    by rewrite (FindMaterial_while_miss st tag' indeterminate _ Hmiss 0 ltac:(done) eq_refl). }
  split; [done|]. unfold SetShaderMaterial.
  replace (_ >? 0) with true by (symmetry; apply Z.gtb_lt; lia).
  rewrite Hfind. simpl. by rewrite Hsh.
Qed.

(** C2.  The code on a tag no preset carries: with no preset defined
    SetShaderMaterial writes nothing; with the five presets of
    DefineObjectMaterials defined, FindMaterial "plastic" answers true
    without assigning the caller's material, and SetShaderMaterial then
    writes the five material uniforms from that unassigned local. *)
Theorem SetShaderMaterial_unknown_tag_writes :
  let st := DefineObjectMaterials Sample.fresh in
  SetShaderMaterial "plastic" Sample.fresh = Ok Sample.fresh /\
  FindMaterial "plastic" indeterminate st = Ok (true, indeterminate) /\
  SetShaderMaterial "plastic" st =
    Ok (set_shader
          (Some [("material.ambientColor", Shader.Vec3 (ambientColor indeterminate));
                 ("material.ambientStrength", Shader.Float (ambientStrength indeterminate));
                 ("material.diffuseColor", Shader.Vec3 (diffuseColor indeterminate));
                 ("material.specularColor", Shader.Vec3 (specularColor indeterminate));
                 ("material.shininess", Shader.Float (shininess indeterminate))])
          st).
Proof.
  intros st. split; [by apply SetShaderMaterial_empty|].
  apply (SetShaderMaterial_miss "plastic" st []).
  - done.
  - subst st. unfold DefineObjectMaterials, push_back. simpl.
    repeat (apply Forall_cons; split; [simpl; discriminate|]). by apply Forall_nil.
  - done.
Qed.

End Materials.

(** * Scene assembly *)

Create HintDb scene.

Lemma drew_nothing st : drew [] st st.
Proof. unfold drew. by rewrite app_nil_r. Qed.

Lemma renderable_drew st : renderable st -> renderable st /\ drew [] st st.
Proof. split; [done | apply drew_nothing]. Qed.

(** A write to the shader manager changes nothing the invariants look at. *)
Lemma shader_write_drew st0 cs st sh' :
  m_pShaderManager st <> None ->
  renderable st /\ drew cs st0 st ->
  renderable (set_shader (Some sh') st) /\ drew cs st0 (set_shader (Some sh') st).
Proof.
  intros Hsome [[Hwf Hmat] (Hm & Hts & Hn & Hms & Hnull)].
  split; [split; [done | done] |].
  unfold drew. simpl. split_and!; try done. split; [done|]. intros H.
  apply Hnull in H. done.
Qed.

Lemma SetTransformations_drew st0 cs st scaleXYZ rx ry rz positionXYZ :
  renderable st /\ drew cs st0 st ->
  renderable (SetTransformations scaleXYZ rx ry rz positionXYZ st) /\
  drew cs st0 (SetTransformations scaleXYZ rx ry rz positionXYZ st).
Proof.
  intros H. unfold SetTransformations.
  destruct (m_pShaderManager st) eqn:E; [|done].
  apply shader_write_drew; [by rewrite E | done].
Qed.

Lemma SetShaderColor_drew st0 cs st r g b a :
  renderable st /\ drew cs st0 st ->
  renderable (SetShaderColor r g b a st) /\ drew cs st0 (SetShaderColor r g b a st).
Proof.
  intros H. unfold SetShaderColor.
  destruct (m_pShaderManager st) eqn:E; [|done].
  apply shader_write_drew; [by rewrite E | done].
Qed.

Lemma SetTextureUVScale_drew st0 cs st u v :
  renderable st /\ drew cs st0 st ->
  renderable (SetTextureUVScale u v st) /\ drew cs st0 (SetTextureUVScale u v st).
Proof.
  intros H. unfold SetTextureUVScale.
  destruct (m_pShaderManager st) eqn:E; [|done].
  apply shader_write_drew; [by rewrite E | done].
Qed.

Lemma mesh_drew st0 cs st c :
  renderable st /\ drew cs st0 st ->
  renderable (mesh c st) /\ drew (cs ++ [c]) st0 (mesh c st).
Proof.
  intros [[Hwf Hmat] (Hm & Hts & Hn & Hms & Hnull)].
  split; [done|]. unfold drew. simpl. rewrite Hm, app_assoc. done.
Qed.

Lemma SetShaderTexture_drew st0 st textureTag cs :
  renderable st /\ drew cs st0 st ->
  exists st', SetShaderTexture textureTag st = Ok st' /\
              renderable st' /\ drew cs st0 st'.
Proof.
  intros H. unfold SetShaderTexture.
  destruct (m_pShaderManager st) eqn:E; [|by eexists].
  rewrite FindTextureSlot_scan by apply H. simpl.
  eexists. split; [reflexivity|].
  apply shader_write_drew; [by rewrite E | done].
Qed.

#[export] Hint Resolve SetTransformations_drew SetShaderColor_drew
  SetTextureUVScale_drew mesh_drew renderable_drew : scene.

Section Rendering.

Variable indeterminate : OBJECT_MATERIAL.

Local Abbreviation SetShaderMaterial := (SetShaderMaterial indeterminate).
Local Abbreviation RenderTable := (RenderTable indeterminate).
Local Abbreviation RenderBackdrop := (RenderBackdrop).
Local Abbreviation RenderCheeseWheel := (RenderCheeseWheel indeterminate).
Local Abbreviation RenderBook := (RenderBook indeterminate).
Local Abbreviation RenderWineGlass := (RenderWineGlass indeterminate).
Local Abbreviation RenderWineBottle := (RenderWineBottle indeterminate).
Local Abbreviation RenderScene := (RenderScene indeterminate).

Lemma SetShaderMaterial_drew st0 st materialTag cs :
  renderable st /\ drew cs st0 st ->
  exists st', SetShaderMaterial materialTag st = Ok st' /\
              renderable st' /\ drew cs st0 st'.
Proof.
  intros H. unfold SetShaderMaterial.
  destruct (_ >? 0) eqn:Hlen; [|by eexists].
  destruct (FindMaterial_returns materialTag indeterminate st) as [[b m] ->]. simpl.
  destruct b; [|by eexists].
  destruct (m_pShaderManager st) eqn:E.
  - eexists. split; [reflexivity|].
    apply shader_write_drew; [by rewrite E | done].
  - destruct H as [[_ Hmat] _]. rewrite (Hmat E) in Hlen. done.
Qed.

(** One step of a render routine: the call at the head of the sequence
    returns, and the continuation goes on from the state it leaves. *)
Ltac scene_step st0 :=
  lazymatch goal with
  | |- context [SetShaderTexture ?t ?s] =>
      let H := fresh "Hstep" in
      edestruct (SetShaderTexture_drew st0 s t) as (? & -> & H);
      [ eauto 20 with scene | cbn [mbind outcome_bind] ]
  | |- context [SetShaderMaterial ?t ?s] =>
      let H := fresh "Hstep" in
      edestruct (SetShaderMaterial_drew st0 s t) as (? & -> & H);
      [ eauto 20 with scene | cbn [mbind outcome_bind] ]
  end.

Ltac scene_done st0 :=
  eexists; split; [reflexivity|];
  lazymatch goal with
  | |- renderable ?s /\ _ =>
      let H := fresh "Hend" in
      eassert (H : renderable s /\ drew _ st0 s) by eauto 20 with scene;
      exact H
  end.

Ltac scene_run st0 := cbv zeta; repeat scene_step st0; scene_done st0.

Lemma RenderTable_draws st :
  renderable st ->
  exists st', RenderTable st = Ok st' /\ renderable st' /\
              drew [Meshes.DrawBoxMesh] st st'.
Proof. intros H. unfold RenderTable. scene_run st. Qed.

Lemma RenderBackdrop_draws st :
  renderable st ->
  exists st', RenderBackdrop st = Ok st' /\ renderable st' /\
              drew [Meshes.DrawPlaneMesh] st st'.
Proof. intros H. unfold RenderBackdrop. scene_run st. Qed.

Lemma RenderCheeseWheel_draws st :
  renderable st ->
  exists st', RenderCheeseWheel st = Ok st' /\ renderable st' /\
              drew [Meshes.DrawCylinderMesh false false true;
                    Meshes.DrawCylinderMesh true false false] st st'.
Proof. intros H. unfold RenderCheeseWheel. scene_run st. Qed.

Lemma RenderBook_draws st :
  renderable st ->
  exists st', RenderBook st = Ok st' /\ renderable st' /\
              drew [Meshes.DrawBoxMesh; Meshes.DrawBoxMesh; Meshes.DrawBoxMesh] st st'.
Proof. intros H. unfold RenderBook. scene_run st. Qed.

Lemma RenderWineGlass_draws st :
  renderable st ->
  exists st', RenderWineGlass st = Ok st' /\ renderable st' /\
              drew [Meshes.DrawCylinderMesh false false true;
                    Meshes.DrawCylinderMesh true false false] st st'.
Proof. intros H. unfold RenderWineGlass. scene_run st. Qed.

Lemma RenderWineBottle_draws st :
  renderable st ->
  exists st', RenderWineBottle st = Ok st' /\ renderable st' /\
              drew [Meshes.DrawHalfSphereMesh;
                    Meshes.DrawCylinderMesh false false true;
                    Meshes.DrawHalfSphereMesh;
                    Meshes.DrawCylinderMesh false false true;
                    Meshes.DrawTorusMesh; Meshes.DrawTorusMesh] st st'.
Proof. intros H. unfold RenderWineBottle. scene_run st. Qed.

Lemma drew_draws cs st st' :
  drew cs st st' ->
  Meshes.draws (m_basicMeshes st') =
  Meshes.draws (m_basicMeshes st) ++ Meshes.draws cs.
Proof. intros (-> & _). apply omap_app. Qed.

(** C8.  From any renderable state, RenderScene runs RenderTable,
    RenderBackdrop, RenderCheeseWheel, RenderBook, RenderWineGlass and
    RenderWineBottle in that order, each from the state the previous one
    left, and the primitives drawn are theirs in that order; and
    RenderWineBottle issues exactly six draw requests: half-sphere,
    cylinder, half-sphere, cylinder, torus, torus. *)
Theorem RenderScene_draw_order (st : SceneManager) :
  renderable st ->
  (exists table backdrop cheese book glass bottle,
      RenderTable st = Ok table /\
      RenderBackdrop table = Ok backdrop /\
      RenderCheeseWheel backdrop = Ok cheese /\
      RenderBook cheese = Ok book /\
      RenderWineGlass book = Ok glass /\
      RenderWineBottle glass = Ok bottle /\
      RenderScene st = Ok bottle /\
      Meshes.draws (m_basicMeshes bottle) =
        Meshes.draws (m_basicMeshes st) ++
        [Meshes.Box] ++ [Meshes.Plane] ++ [Meshes.Cylinder; Meshes.Cylinder] ++
        [Meshes.Box; Meshes.Box; Meshes.Box] ++
        [Meshes.Cylinder; Meshes.Cylinder] ++
        [Meshes.HalfSphere; Meshes.Cylinder; Meshes.HalfSphere;
         Meshes.Cylinder; Meshes.Torus; Meshes.Torus]) /\
  (exists bottle,
      RenderWineBottle st = Ok bottle /\
      m_basicMeshes bottle =
        m_basicMeshes st ++
        [Meshes.DrawHalfSphereMesh; Meshes.DrawCylinderMesh false false true;
         Meshes.DrawHalfSphereMesh; Meshes.DrawCylinderMesh false false true;
         Meshes.DrawTorusMesh; Meshes.DrawTorusMesh] /\
      Meshes.draws (m_basicMeshes bottle) =
        Meshes.draws (m_basicMeshes st) ++
        [Meshes.HalfSphere; Meshes.Cylinder; Meshes.HalfSphere;
         Meshes.Cylinder; Meshes.Torus; Meshes.Torus]).
Proof.
  intros H. split.
  - destruct (RenderTable_draws st H) as (s1 & E1 & H1 & D1).
    destruct (RenderBackdrop_draws s1 H1) as (s2 & E2 & H2 & D2).
    destruct (RenderCheeseWheel_draws s2 H2) as (s3 & E3 & H3 & D3).
    destruct (RenderBook_draws s3 H3) as (s4 & E4 & H4 & D4).
    destruct (RenderWineGlass_draws s4 H4) as (s5 & E5 & H5 & D5).
    destruct (RenderWineBottle_draws s5 H5) as (s6 & E6 & H6 & D6).
    exists s1, s2, s3, s4, s5, s6. split_and!; try done.
    + unfold RenderScene.
      rewrite E1; cbn [mbind outcome_bind]. rewrite E2; cbn [mbind outcome_bind].
      rewrite E3; cbn [mbind outcome_bind]. rewrite E4; cbn [mbind outcome_bind].
      rewrite E5; cbn [mbind outcome_bind]. done.
    + rewrite (drew_draws _ _ _ D6), (drew_draws _ _ _ D5), (drew_draws _ _ _ D4),
        (drew_draws _ _ _ D3), (drew_draws _ _ _ D2), (drew_draws _ _ _ D1).
      rewrite <- !app_assoc. reflexivity.
  - destruct (RenderWineBottle_draws st H) as (s & E & _ & D).
    exists s. split_and!; [done | apply D | apply (drew_draws _ _ _ D)].
Qed.

End Rendering.

Lemma RenderScene_draw_order_witness :
  exists bottle,
    RenderScene Sample.garbage (DefineObjectMaterials Sample.textured)
      = Ok bottle /\
    Meshes.draws (m_basicMeshes bottle) =
      [Meshes.Box; Meshes.Plane; Meshes.Cylinder; Meshes.Cylinder;
       Meshes.Box; Meshes.Box; Meshes.Box; Meshes.Cylinder; Meshes.Cylinder;
       Meshes.HalfSphere; Meshes.Cylinder; Meshes.HalfSphere;
       Meshes.Cylinder; Meshes.Torus; Meshes.Torus].
Proof.
  destruct (RenderScene_draw_order Sample.garbage
              (DefineObjectMaterials Sample.textured)) as [H _].
  - split; [split; [reflexivity | simpl; unfold capacity; lia] | discriminate].
  - destruct H as (? & ? & ? & ? & ? & bottle & _ & _ & _ & _ & _ & _ & E & D).
    exists bottle. split; [exact E | exact D].
Defined.

(** * The model matrix *)
Section ModelMatrix.
Local Open Scope R_scope.

Lemma mul_vec_mul (a b : Glm.mat4) (v : Glm.vec4) :
  Glm.mul_vec (Glm.mul a b) v = Glm.mul_vec a (Glm.mul_vec b v).
Proof.
  destruct a as [[] [] [] []], b as [[] [] [] []], v.
  unfold Glm.mul, Glm.mul_vec, Glm.vadd, Glm.vscale; simpl.
  f_equal; ring.
Qed.

Lemma scale_columns sx sy sz :
  Glm.scale (Glm.mkvec3 sx sy sz) =
  Glm.mkmat4 (Glm.mkvec4 sx 0 0 0) (Glm.mkvec4 0 sy 0 0)
             (Glm.mkvec4 0 0 sz 0) (Glm.mkvec4 0 0 0 1).
Proof.
  unfold Glm.scale, Glm.scale_m, Glm.identity, Glm.vscale; simpl.
  f_equal; f_equal; ring.
Qed.

Lemma translate_columns px py pz :
  Glm.translate (Glm.mkvec3 px py pz) =
  Glm.mkmat4 (Glm.mkvec4 1 0 0 0) (Glm.mkvec4 0 1 0 0)
             (Glm.mkvec4 0 0 1 0) (Glm.mkvec4 px py pz 1).
Proof.
  unfold Glm.translate, Glm.translate_m, Glm.identity, Glm.vadd, Glm.vscale; simpl.
  f_equal; f_equal; ring.
Qed.

Lemma normalize_x : Glm.normalize (Glm.mkvec3 1 0 0) = Glm.mkvec3 1 0 0.
Proof.
  unfold Glm.normalize, Glm.dot; simpl.
  replace (1 * 1 + 0 * 0 + 0 * 0) with 1 by ring. rewrite sqrt_1, Rinv_1.
  f_equal; ring.
Qed.

Lemma normalize_y : Glm.normalize (Glm.mkvec3 0 1 0) = Glm.mkvec3 0 1 0.
Proof.
  unfold Glm.normalize, Glm.dot; simpl.
  replace (0 * 0 + 1 * 1 + 0 * 0) with 1 by ring. rewrite sqrt_1, Rinv_1.
  f_equal; ring.
Qed.

Lemma normalize_z : Glm.normalize (Glm.mkvec3 0 0 1) = Glm.mkvec3 0 0 1.
Proof.
  unfold Glm.normalize, Glm.dot; simpl.
  replace (0 * 0 + 0 * 0 + 1 * 1) with 1 by ring. rewrite sqrt_1, Rinv_1.
  f_equal; ring.
Qed.

Lemma rotate_x_columns a :
  Glm.rotate a (Glm.mkvec3 1 0 0) =
  Glm.mkmat4 (Glm.mkvec4 1 0 0 0) (Glm.mkvec4 0 (cos a) (sin a) 0)
             (Glm.mkvec4 0 (- sin a) (cos a) 0) (Glm.mkvec4 0 0 0 1).
Proof.
  unfold Glm.rotate, Glm.rotate_m. rewrite normalize_x.
  unfold Glm.identity, Glm.vadd, Glm.vscale; simpl.
  f_equal; f_equal; ring.
Qed.

Lemma rotate_y_columns a :
  Glm.rotate a (Glm.mkvec3 0 1 0) =
  Glm.mkmat4 (Glm.mkvec4 (cos a) 0 (- sin a) 0) (Glm.mkvec4 0 1 0 0)
             (Glm.mkvec4 (sin a) 0 (cos a) 0) (Glm.mkvec4 0 0 0 1).
Proof.
  unfold Glm.rotate, Glm.rotate_m. rewrite normalize_y.
  unfold Glm.identity, Glm.vadd, Glm.vscale; simpl.
  f_equal; f_equal; ring.
Qed.

Lemma rotate_z_columns a :
  Glm.rotate a (Glm.mkvec3 0 0 1) =
  Glm.mkmat4 (Glm.mkvec4 (cos a) (sin a) 0 0) (Glm.mkvec4 (- sin a) (cos a) 0 0)
             (Glm.mkvec4 0 0 1 0) (Glm.mkvec4 0 0 0 1).
Proof.
  unfold Glm.rotate, Glm.rotate_m. rewrite normalize_z.
  unfold Glm.identity, Glm.vadd, Glm.vscale; simpl.
  f_equal; f_equal; ring.
Qed.

(** What each of the five matrices does to a vector. *)
Lemma scale_apply sx sy sz x y z w :
  Glm.mul_vec (Glm.scale (Glm.mkvec3 sx sy sz)) (Glm.mkvec4 x y z w) =
  Glm.mkvec4 (sx * x) (sy * y) (sz * z) w.
Proof.
  rewrite scale_columns. unfold Glm.mul_vec, Glm.vadd, Glm.vscale; simpl.
  f_equal; ring.
Qed.

Lemma translate_apply px py pz x y z w :
  Glm.mul_vec (Glm.translate (Glm.mkvec3 px py pz)) (Glm.mkvec4 x y z w) =
  Glm.mkvec4 (x + px * w) (y + py * w) (z + pz * w) w.
Proof.
  rewrite translate_columns. unfold Glm.mul_vec, Glm.vadd, Glm.vscale; simpl.
  f_equal; ring.
Qed.

Lemma rotate_x_apply a x y z w :
  Glm.mul_vec (Glm.rotate a (Glm.mkvec3 1 0 0)) (Glm.mkvec4 x y z w) =
  Glm.mkvec4 x (cos a * y - sin a * z) (sin a * y + cos a * z) w.
Proof.
  rewrite rotate_x_columns. unfold Glm.mul_vec, Glm.vadd, Glm.vscale; simpl.
  f_equal; ring.
Qed.

Lemma rotate_y_apply a x y z w :
  Glm.mul_vec (Glm.rotate a (Glm.mkvec3 0 1 0)) (Glm.mkvec4 x y z w) =
  Glm.mkvec4 (cos a * x + sin a * z) y (cos a * z - sin a * x) w.
Proof.
  rewrite rotate_y_columns. unfold Glm.mul_vec, Glm.vadd, Glm.vscale; simpl.
  f_equal; ring.
Qed.

Lemma rotate_z_apply a x y z w :
  Glm.mul_vec (Glm.rotate a (Glm.mkvec3 0 0 1)) (Glm.mkvec4 x y z w) =
  Glm.mkvec4 (cos a * x - sin a * y) (sin a * x + cos a * y) z w.
Proof.
  rewrite rotate_z_columns. unfold Glm.mul_vec, Glm.vadd, Glm.vscale; simpl.
  f_equal; ring.
Qed.

(** The model matrix applied to a vector: scale, then the rotations about
    Z, Y and X, then the translation, each written out. *)
Lemma modelView_apply sx sy sz rx ry rz px py pz x y z w :
  Glm.mul_vec (modelView (Glm.mkvec3 sx sy sz) rx ry rz (Glm.mkvec3 px py pz))
              (Glm.mkvec4 x y z w) =
  let x1 := sx * x in
  let y1 := sy * y in
  let z1 := sz * z in
  let x2 := cos (Glm.radians rz) * x1 - sin (Glm.radians rz) * y1 in
  let y2 := sin (Glm.radians rz) * x1 + cos (Glm.radians rz) * y1 in
  let x3 := cos (Glm.radians ry) * x2 + sin (Glm.radians ry) * z1 in
  let z3 := cos (Glm.radians ry) * z1 - sin (Glm.radians ry) * x2 in
  let y4 := cos (Glm.radians rx) * y2 - sin (Glm.radians rx) * z3 in
  let z4 := sin (Glm.radians rx) * y2 + cos (Glm.radians rx) * z3 in
  Glm.mkvec4 (x3 + px * w) (y4 + py * w) (z4 + pz * w) w.
Proof.
  unfold modelView; cbv zeta.
  by rewrite !mul_vec_mul, scale_apply, rotate_z_apply, rotate_y_apply,
    rotate_x_apply, translate_apply.
Qed.

Lemma radians_zero : Glm.radians 0 = 0.
Proof. unfold Glm.radians. ring. Qed.

Lemma radians_quarter : Glm.radians 90 = PI / 2.
Proof. unfold Glm.radians. field. Qed.

Lemma near_refl (eps : R) (v : Glm.vec4) : 0 <= eps -> near eps v v.
Proof.
  intros H. unfold near, Rminus. rewrite !Rplus_opp_r, Rabs_R0. done.
Qed.

(** The image of a vector under the model matrix when every angle is 0 or
    90 degrees, compared with a vector given by its coordinates. *)
Ltac quarter_turns :=
  rewrite modelView_apply, ?radians_zero, ?radians_quarter,
    ?cos_0, ?sin_0, ?cos_PI2, ?sin_PI2;
  cbv zeta;
  match goal with
  | |- near _ ?a ?b => replace a with b by (f_equal; ring)
  end;
  apply near_refl; lra.

(** C1.  SetTransformations writes to the model uniform the product
    translation * rotationX * rotationY * rotationZ * scale, multiplied in
    that order.  Whatever the scale and the angles, that matrix sends the
    local origin to the position; with the three angles at zero it scales
    every coordinate and then translates it.  Within 1/10000 in each
    coordinate: for scale (2,1,1), 90 degrees about Y and no translation it
    sends (1,0,0) to (0,0,-2); 90 degrees about X turns Y to Z and 90
    degrees about Z turns X to Y, the position (1,2,3) added afterwards;
    and for scale (2,3,4), 90 degrees about each axis and position (1,2,3)
    it sends (1,1,1) to (5,-1,5), which is the scale first, then the
    rotations about Z, Y and X, then the translation. *)
Theorem SetTransformations_model_matrix :
  (forall (scaleXYZ : Glm.vec3) (XrotationDegrees YrotationDegrees ZrotationDegrees : R)
          (positionXYZ : Glm.vec3) (st : SceneManager) (sh : Shader.ShaderManager),
     let scale := Glm.scale scaleXYZ in
     let rotationX := Glm.rotate (Glm.radians XrotationDegrees) (Glm.mkvec3 1 0 0) in
     let rotationY := Glm.rotate (Glm.radians YrotationDegrees) (Glm.mkvec3 0 1 0) in
     let rotationZ := Glm.rotate (Glm.radians ZrotationDegrees) (Glm.mkvec3 0 0 1) in
     let translation := Glm.translate positionXYZ in
     let M := Glm.mul (Glm.mul (Glm.mul (Glm.mul translation rotationX) rotationY)
                         rotationZ) scale in
     SetTransformations scaleXYZ XrotationDegrees YrotationDegrees
       ZrotationDegrees positionXYZ (set_shader (Some sh) st) =
     set_shader (Some (Shader.setMat4Value g_ModelName M sh)) st /\
     Shader.uniform (Shader.setMat4Value g_ModelName M sh) g_ModelName =
     Some (Shader.Mat4 M) /\
     modelView scaleXYZ XrotationDegrees YrotationDegrees ZrotationDegrees
       positionXYZ = M) /\
  (forall sx sy sz rx ry rz px py pz : R,
     Glm.mul_vec (modelView (Glm.mkvec3 sx sy sz) rx ry rz (Glm.mkvec3 px py pz))
                 (Glm.mkvec4 0 0 0 1) =
     Glm.mkvec4 px py pz 1) /\
  (forall sx sy sz px py pz x y z w : R,
     Glm.mul_vec (modelView (Glm.mkvec3 sx sy sz) 0 0 0 (Glm.mkvec3 px py pz))
                 (Glm.mkvec4 x y z w) =
     Glm.mkvec4 (sx * x + px * w) (sy * y + py * w) (sz * z + pz * w) w) /\
  let eps := 1 / 10000 in
  near eps
    (Glm.mul_vec (modelView (Glm.mkvec3 2 1 1) 0 90 0 (Glm.mkvec3 0 0 0))
                 (Glm.mkvec4 1 0 0 1))
    (Glm.mkvec4 0 0 (-2) 1) /\
  near eps
    (Glm.mul_vec (modelView (Glm.mkvec3 1 1 1) 90 0 0 (Glm.mkvec3 1 2 3))
                 (Glm.mkvec4 0 1 0 1))
    (Glm.mkvec4 1 2 4 1) /\
  near eps
    (Glm.mul_vec (modelView (Glm.mkvec3 1 1 1) 0 0 90 (Glm.mkvec3 1 2 3))
                 (Glm.mkvec4 1 0 0 1))
    (Glm.mkvec4 1 3 3 1) /\
  near eps
    (Glm.mul_vec (modelView (Glm.mkvec3 2 3 4) 90 90 90 (Glm.mkvec3 1 2 3))
                 (Glm.mkvec4 1 1 1 1))
    (Glm.mkvec4 5 (-1) 5 1).
Proof.
  split_and!.
  - intros. split_and!; [reflexivity | apply uniform_set_eq | reflexivity].
  - intros. rewrite modelView_apply. cbv zeta. f_equal; ring.
  - intros. rewrite modelView_apply, radians_zero, cos_0, sin_0. cbv zeta.
    f_equal; ring.
  - intros eps. subst eps. split_and!; quarter_turns.
Qed.

End ModelMatrix.

(** * Further properties of the texture registry *)

(** X1.  On a well-formed registry, whatever FindTextureSlot returns is
    either -1, and then FindTextureID returns -1 too and no loaded slot
    carries the tag, or the index of a loaded slot that carries the tag,
    and then FindTextureID returns that slot's handle. *)
Theorem lookup_result_is_loaded_slot (st : SceneManager) (tag' : string) (i : Z) :
  wf st ->
  FindTextureSlot tag' st = Ok i ->
  i = -1 /\ FindTextureID tag' st = Ok (-1) /\ unregistered st tag' \/
  0 <= i < m_loadedTextures st /\
  exists t, slot_at st i = Some t /\ tag t = tag' /\
            FindTextureID tag' st = Ok (to_int (ID t)).
Proof.
  intros Hwf. rewrite FindTextureSlot_scan, FindTextureID_scan by done.
  destruct (first_match tag' (loaded st)) as [[j t]|] eqn:Hfm; intros [= <-].
  - right. apply list_find_Some in Hfm as (Hj & Htag & _).
    pose proof (lookup_lt_Some _ _ _ Hj) as Hlt.
    rewrite loaded_length in Hlt by done.
    destruct (slot_at_loaded st (Z.of_nat j) Hwf) as (u & Hu & Hl); [lia|].
    rewrite Nat2Z.id in Hl. assert (u = t) as -> by congruence.
    split; [lia|]. by exists t.
  - left. split_and!; [done..|].
    intros j t Hj Ht Htag.
    apply list_find_None in Hfm.
    destruct (slot_at_loaded st j Hwf Hj) as (u & Hu & Hl).
    assert (u = t) as -> by congruence.
    apply (Forall_lookup_1 _ _ _ _ Hfm Hl). done.
Qed.

Lemma lookup_result_is_loaded_slot_witness :
  0 <= 2 < m_loadedTextures Sample.collide /\
  exists t, slot_at Sample.collide 2 = Some t /\ tag t = "table" /\
            FindTextureID "table" Sample.collide = Ok (to_int (ID t)).
Proof.
  destruct (lookup_result_is_loaded_slot Sample.collide "table" 2) as [[H _]|H].
  - vm_compute. split; [reflexivity | split; discriminate].
  - reflexivity.
  - discriminate H.
  - exact H.
Defined.

(** X2.  On a manager that has loaded nothing every tag is unresolved by
    both lookups, the tag "/0" that the constructor stores in the slots
    included. *)
Theorem constructed_manager_resolves_nothing
    (sh : option Shader.ShaderManager) (tag' : string) :
  FindTextureSlot tag' (SceneManager_ctor sh) = Ok (-1) /\
  FindTextureID tag' (SceneManager_ctor sh) = Ok (-1) /\
  slot_at (SceneManager_ctor sh) 0 = Some (mkTEXTURE_INFO "/0" (to_uint32 (-1))).
Proof.
  rewrite FindTextureSlot_scan, FindTextureID_scan by apply wf_ctor.
  done.
Qed.

Section MoreLoading.

Variable stbi_load : string -> option Image.
Variable glGenTextures : list GL.call -> Z.

Local Abbreviation CreateGLTexture := (CreateGLTexture stbi_load glGenTextures).
Local Abbreviation load_all := (load_all stbi_load glGenTextures).
Local Abbreviation usable := (usable stbi_load).
Local Abbreviation accepted_tags := (accepted_tags stbi_load).

(** Whenever CreateGLTexture returns, the loaded part of the table is the
    old one, extended by the new entry exactly when the flag is true. *)
Lemma CreateGLTexture_effect filename tag' st st' bReturn :
  wf st ->
  CreateGLTexture filename tag' st = Ok (bReturn, st') ->
  wf st' /\
  bReturn = usable filename /\
  m_loadedTextures st' = m_loadedTextures st + (if bReturn then 1 else 0) /\
  loaded st' =
    loaded st ++ (if bReturn
                  then [mkTEXTURE_INFO tag' (to_uint32 (glGenTextures (gl_calls st)))]
                  else []) /\
  m_pShaderManager st' = m_pShaderManager st /\
  m_objectMaterials st' = m_objectMaterials st /\
  m_basicMeshes st' = m_basicMeshes st.
Proof.
  intros Hwf Hrun. destruct (usable filename) eqn:Hu.
  - destruct (Z_lt_ge_dec (m_loadedTextures st) capacity) as [Hlt|Hge].
    + destruct (CreateGLTexture_accepted stbi_load glGenTextures filename tag' st
                  Hu Hwf Hlt) as (st1 & Hrun1 & Hts & Hn & Hsh & Hms & Hme).
      rewrite Hrun1 in Hrun. injection Hrun as <- <-.
      destruct Hwf as [Hlen Hr].
      split_and!; try done.
      * split; [by rewrite Hts, length_insert | lia].
      * unfold loaded. rewrite Hn, Hts.
        replace (Z.to_nat (m_loadedTextures st + 1))
          with (S (Z.to_nat (m_loadedTextures st))) by lia.
        unfold capacity in *.
        destruct (lookup_lt_is_Some_2 (m_textureIDs st)
                    (Z.to_nat (m_loadedTextures st))) as [u Hu']; [lia|].
        erewrite take_S_r; [|by rewrite list_lookup_insert_eq by lia].
        by rewrite take_insert_ge by lia.
    + rewrite (CreateGLTexture_full stbi_load glGenTextures filename tag' st Hu)
        in Hrun; [done|]. destruct Hwf as [_ Hr]. lia.
  - destruct (CreateGLTexture_rejected stbi_load glGenTextures filename tag' st Hu)
      as (st1 & Hrun1 & Hts & Hn & Hsh & Hms & Hme).
    rewrite Hrun1 in Hrun. injection Hrun as <- <-.
    split_and!; try done.
    + unfold wf. by rewrite Hts, Hn.
    + lia.
    + unfold loaded. by rewrite Hts, Hn, app_nil_r.
Qed.

(** X3.  Whenever CreateGLTexture returns on a well-formed registry, the
    registry is still well formed; the flag is true exactly when the file
    decoded to an image of 3 or 4 channels; with true, the count grew by
    one and the slot at the old count holds the tag and the new name; with
    false, count and table are unchanged; and the shader manager, the
    materials and the meshes are never touched. *)
Theorem CreateGLTexture_returns_what_it_did
    (filename tag' : string) (st st' : SceneManager) (bReturn : bool) :
  wf st ->
  CreateGLTexture filename tag' st = Ok (bReturn, st') ->
  wf st' /\
  (bReturn = true <->
     exists image, stbi_load filename = Some image /\
                   (colorChannels image = 3 \/ colorChannels image = 4)) /\
  (bReturn = true ->
     m_loadedTextures st' = m_loadedTextures st + 1 /\
     slot_at st' (m_loadedTextures st) =
       Some (mkTEXTURE_INFO tag' (to_uint32 (glGenTextures (gl_calls st))))) /\
  (bReturn = false ->
     m_loadedTextures st' = m_loadedTextures st /\
     m_textureIDs st' = m_textureIDs st) /\
  m_pShaderManager st' = m_pShaderManager st /\
  m_objectMaterials st' = m_objectMaterials st /\
  m_basicMeshes st' = m_basicMeshes st.
Proof.
  intros Hwf Hrun.
  destruct (CreateGLTexture_effect filename tag' st st' bReturn Hwf Hrun)
    as (Hwf' & Hb & Hn & Hloaded & Hsh & Hms & Hme).
  split_and!; try done.
  - rewrite Hb. unfold usable. destruct (stbi_load filename) as [image|].
    + rewrite orb_true_iff, !Z.eqb_eq. split; [by eexists | by intros (? & [= <-] & ?)].
    + split; [done | by intros (? & ? & ?)].
  - intros ->. split; [done|].
    destruct (slot_at_loaded st' (m_loadedTextures st) Hwf') as (t & Ht & Hl);
      [destruct Hwf; lia|].
    rewrite Ht. f_equal. rewrite Hloaded in Hl.
    rewrite lookup_app_r in Hl by (rewrite loaded_length by done; lia).
    rewrite loaded_length in Hl by done.
    rewrite Nat.sub_diag in Hl. by injection Hl.
  - intros ->.
    destruct (CreateGLTexture_rejected stbi_load glGenTextures filename tag' st)
      as (st1 & Hrun1 & Hts & Hn1 & _); [by rewrite <- Hb|].
    rewrite Hrun1 in Hrun. by injection Hrun as <-.
Qed.

(** A file the decoder cannot read costs nothing: no OpenGL call is made
    and the state is returned as it was. *)
Lemma CreateGLTexture_undecodable filename tag' st :
  stbi_load filename = None ->
  CreateGLTexture filename tag' st = Ok (false, st).
Proof. unfold CreateGLTexture. by intros ->. Qed.

Lemma first_match_app_l tag' (l1 l2 : list TEXTURE_INFO) p :
  first_match tag' l1 = Some p -> first_match tag' (l1 ++ l2) = Some p.
Proof.
  unfold first_match. destruct p as [i t]. intros H.
  apply list_find_app_Some. by left.
Qed.

(** X4.  A tag that resolves before a call of CreateGLTexture resolves to
    the same slot and the same handle after it, whatever the call loads and
    under whatever tag, the same tag included. *)
Theorem CreateGLTexture_keeps_registrations
    (filename tag' found : string) (st st' : SceneManager)
    (bReturn : bool) (i : Z) :
  wf st ->
  FindTextureSlot found st = Ok i -> i <> -1 ->
  CreateGLTexture filename tag' st = Ok (bReturn, st') ->
  FindTextureSlot found st' = Ok i /\
  FindTextureID found st' = FindTextureID found st.
Proof.
  intros Hwf Hfound Hi Hrun.
  destruct (CreateGLTexture_effect filename tag' st st' bReturn Hwf Hrun)
    as (Hwf' & _ & _ & Hloaded & _).
  rewrite FindTextureSlot_scan in Hfound by done.
  rewrite FindTextureSlot_scan, !FindTextureID_scan by done.
  destruct (first_match found (loaded st)) as [[j t]|] eqn:Hfm; [|congruence].
  rewrite Hloaded. rewrite (first_match_app_l _ _ _ _ Hfm). done.
Qed.

(** Whenever a sequence of calls returns, the loaded part of the table has
    grown by one entry per accepted call, tagged in call order. *)
Lemma load_all_effect calls :
  forall st st',
    wf st -> load_all calls st = Ok st' ->
    wf st' /\
    exists entries,
      loaded st' = loaded st ++ entries /\
      tag <$> entries = accepted_tags calls /\
      m_pShaderManager st' = m_pShaderManager st /\
      m_objectMaterials st' = m_objectMaterials st /\
      m_basicMeshes st' = m_basicMeshes st.
Proof.
  induction calls as [|[f t] calls IH]; intros st st' Hwf Hrun; simpl in Hrun.
  - injection Hrun as <-. split; [done|]. exists []. by rewrite app_nil_r.
  - destruct (CreateGLTexture f t st) as [[b st1]|] eqn:Hcall; [|done].
    simpl in Hrun.
    destruct (CreateGLTexture_effect f t st st1 b Hwf Hcall)
      as (Hwf1 & Hb & _ & Hloaded1 & Hsh1 & Hms1 & Hme1).
    destruct (IH st1 st' Hwf1 Hrun) as (Hwf' & entries & Hloaded & Htags & Hsh & Hms & Hme).
    split; [done|].
    eexists. split_and!.
    + rewrite Hloaded, Hloaded1, <- app_assoc. reflexivity.
    + rewrite fmap_app, Htags, accepted_tags_cons, <- Hb. by destruct b.
    + congruence.
    + congruence.
    + congruence.
Qed.

Lemma first_match_app tag' (l1 l2 : list TEXTURE_INFO) :
  first_match tag' l1 = None ->
  first_match tag' (l1 ++ l2) =
  fmap (M := option) (prod_map (λ i, (length l1 + i)%nat) (λ t, t)) (first_match tag' l2).
Proof.
  unfold first_match. intros Hnone.
  destruct (list_find _ l2) as [[i t]|] eqn:H2; simpl.
  - apply list_find_app_Some. right. split; [lia|]. split; [done|].
    rewrite H2. f_equal. f_equal. lia.
  - apply list_find_None in Hnone, H2.
    apply list_find_None, Forall_app. by split.
Qed.

(** X5.  After any sequence of CreateGLTexture calls that returns, the
    count has grown by the number of accepted calls, and a tag is
    unresolved exactly when it was unresolved before and no accepted call
    carried it. *)
Theorem tag_resolves_iff_loaded
    (calls : list (string * string)) (st st' : SceneManager) (tag' : string) :
  wf st ->
  load_all calls st = Ok st' ->
  m_loadedTextures st' =
    m_loadedTextures st + Z.of_nat (length (accepted_tags calls)) /\
  (FindTextureSlot tag' st' = Ok (-1) <->
   FindTextureSlot tag' st = Ok (-1) /\ tag' ∉ accepted_tags calls).
Proof.
  intros Hwf Hrun.
  destruct (load_all_effect calls st st' Hwf Hrun)
    as (Hwf' & entries & Hloaded & Htags & _).
  split.
  - pose proof (loaded_length st' Hwf') as Hlen'.
    rewrite Hloaded, length_app, loaded_length in Hlen' by done.
    rewrite <- Htags, length_fmap. destruct Hwf, Hwf'. lia.
  - rewrite !FindTextureSlot_scan by done. rewrite Hloaded.
    destruct (first_match tag' (loaded st)) as [[i t]|] eqn:Hfm.
    + rewrite (first_match_app_l _ _ entries _ Hfm).
      split; [intros [=]; lia | intros [[=] _]; lia].
    + rewrite (first_match_app _ _ _ Hfm).
      destruct (first_match tag' entries) as [[i t]|] eqn:Hfe; simpl.
      * split; [intros [=]; lia|]. intros [_ Hnotin]. exfalso. apply Hnotin.
        apply list_find_Some in Hfe as (Hi & Htag & _).
        rewrite <- Htags, <- Htag. apply list_elem_of_fmap_2.
        by eapply list_elem_of_lookup_2.
      * split; [|done]. intros _. split; [done|].
        rewrite <- Htags. intros Hin.
        apply list_elem_of_fmap in Hin as (t & -> & Hin).
        apply list_find_None in Hfe.
        by apply (proj1 (Forall_forall _ _) Hfe t Hin).
Qed.

(** *** Binding *)

Lemma gl_gl cs1 cs2 st : gl cs2 (gl cs1 st) = gl (cs1 ++ cs2) st.
Proof. unfold gl. simpl. by rewrite <- app_assoc. Qed.

Lemma BindGLTextures_loop (count : nat) :
  forall i st,
    wf st -> 0 <= i -> i + Z.of_nat count <= capacity ->
    for_range count i BindGLTextures_body st =
    Ok (gl (bind_calls i (take count (drop (Z.to_nat i) (m_textureIDs st)))) st).
Proof.
  induction count as [|count IH]; intros i st Hwf Hi Hfit; cbn [for_range].
  - simpl. unfold gl. rewrite app_nil_r. by destruct st.
  - destruct (slot_at_inside st i Hwf) as [t Ht]; [lia|].
    assert (Hbody : BindGLTextures_body i st =
                    Ok (gl [GL.ActiveTexture i; GL.BindTexture (ID t)] st))
      by (unfold BindGLTextures_body; by rewrite Ht).
    rewrite Hbody. cbn [mbind outcome_bind].
    rewrite IH by (done || lia). rewrite gl_gl. simpl m_textureIDs.
    unfold slot_at in Ht. destruct (_ && _); [|done].
    rewrite (drop_S _ _ _ Ht). simpl.
    by replace (Z.to_nat (i + 1)) with (S (Z.to_nat i)) by lia.
Qed.

Lemma bind_calls_lookup ts : forall unit (i : nat) t,
  ts !! i = Some t ->
  bind_calls unit ts !! (2 * i)%nat = Some (GL.ActiveTexture (unit + Z.of_nat i)) /\
  bind_calls unit ts !! (2 * i + 1)%nat = Some (GL.BindTexture (ID t)).
Proof.
  induction ts as [|u ts IH]; intros unit i t Hi; [done|].
  destruct i as [|i]; simpl in *.
  - injection Hi as ->. split; [f_equal; f_equal; lia | done].
  - destruct (IH (unit + 1) i t Hi) as [H1 H2].
    replace (i + S (i + 0))%nat with (S (2 * i)) by lia. simpl.
    split; [rewrite H1; f_equal; f_equal; lia|].
    by replace (i + (i + 0) + 1)%nat with (2 * i + 1)%nat by lia.
Qed.

(** X6.  BindGLTextures on a well-formed registry changes nothing but the
    OpenGL log, to which it appends two calls per loaded slot, in slot
    order: for slot [i], glActiveTexture on unit [i], then glBindTexture of
    the handle slot [i] holds. *)
Theorem BindGLTextures_binds_slot_to_unit (st : SceneManager) :
  wf st ->
  BindGLTextures st = Ok (gl (bind_calls 0 (loaded st)) st) /\
  length (bind_calls 0 (loaded st)) = (2 * Z.to_nat (m_loadedTextures st))%nat /\
  forall i t, 0 <= i < m_loadedTextures st -> slot_at st i = Some t ->
    bind_calls 0 (loaded st) !! (2 * Z.to_nat i)%nat = Some (GL.ActiveTexture i) /\
    bind_calls 0 (loaded st) !! (2 * Z.to_nat i + 1)%nat = Some (GL.BindTexture (ID t)).
Proof.
  intros Hwf. split_and!.
  - unfold BindGLTextures, for_upto.
    rewrite BindGLTextures_loop by (done || destruct Hwf; lia).
    by rewrite drop_0.
  - rewrite <- (loaded_length st Hwf). generalize 0.
    induction (loaded st) as [|t ts IH]; intros unit; simpl; [done|].
    rewrite IH. lia.
  - intros i t Hi Ht.
    destruct (slot_at_loaded st i Hwf Hi) as (u & Hu & Hl).
    assert (u = t) as -> by congruence.
    destruct (bind_calls_lookup (loaded st) 0 (Z.to_nat i) t Hl) as [H1 H2].
    split; [|done]. rewrite H1. f_equal. f_equal. lia.
Qed.

(** *** Destruction *)

Lemma DestroyGLTextures_log_loop (count : nat) :
  forall i st,
    wf st -> 0 <= i -> i + Z.of_nat count <= capacity ->
    exists st',
      for_range count i (DestroyGLTextures_body glGenTextures) st = Ok st' /\
      wf st' /\
      m_loadedTextures st' = m_loadedTextures st /\
      gl_calls st' =
        gl_calls st ++
        (GL.GenTextures ∘ ID <$> take count (drop (Z.to_nat i) (m_textureIDs st'))) /\
      ID <$> take count (drop (Z.to_nat i) (m_textureIDs st')) =
        generated glGenTextures count (gl_calls st) /\
      take (Z.to_nat i) (m_textureIDs st') = take (Z.to_nat i) (m_textureIDs st) /\
      drop (Z.to_nat i + count) (m_textureIDs st') =
        drop (Z.to_nat i + count) (m_textureIDs st) /\
      m_pShaderManager st' = m_pShaderManager st /\
      m_objectMaterials st' = m_objectMaterials st /\
      m_basicMeshes st' = m_basicMeshes st.
Proof.
  induction count as [|count IH]; intros i st Hwf Hi Hfit; cbn [for_range].
  - exists st. rewrite Nat.add_0_r. simpl. by rewrite app_nil_r.
  - destruct (slot_at_inside st i Hwf) as [t Ht]; [lia|].
    set (name := to_uint32 (glGenTextures (gl_calls st))).
    set (st1 := gl [GL.GenTextures name]
                  (set_textures
                     (<[Z.to_nat i := mkTEXTURE_INFO (tag t) name]> (m_textureIDs st))
                     (m_loadedTextures st) st)).
    assert (Hbody : DestroyGLTextures_body glGenTextures i st = Ok st1)
      by (unfold DestroyGLTextures_body; by rewrite Ht).
    rewrite Hbody. cbn [mbind outcome_bind].
    assert (Hlen : length (m_textureIDs st) = 16%nat) by apply Hwf.
    assert (Hwf1 : wf st1).
    { destruct Hwf as [? Hr]. split; [|done]. simpl. by rewrite length_insert. }
    destruct (IH (i + 1) st1 Hwf1) as
      (st' & Hrun & Hwf' & Hn & Hgl & Hnames & Htake & Hdrop & Hsh & Hms & Hme);
      [lia..|].
    replace (Z.to_nat (i + 1)) with (S (Z.to_nat i)) in * by lia.
    unfold capacity in *.
    assert (Hi' : m_textureIDs st' !! Z.to_nat i = Some (mkTEXTURE_INFO (tag t) name)).
    { rewrite <- (lookup_take_lt _ (S (Z.to_nat i))) by lia. rewrite Htake.
      rewrite lookup_take_lt by lia. simpl.
      apply list_lookup_insert_eq. lia. }
    exists st'. split_and!; try done.
    + rewrite Hgl. simpl gl_calls. rewrite <- app_assoc. f_equal.
      rewrite (drop_S _ _ _ Hi'). done.
    + rewrite (drop_S _ _ _ Hi'). cbn [take fmap list_fmap generated ID].
      fold name. f_equal. exact Hnames.
    + apply (f_equal (take (Z.to_nat i))) in Htake.
      rewrite !take_take, Nat.min_l in Htake by lia.
      rewrite Htake. simpl. apply take_insert_ge. lia.
    + replace (Z.to_nat i + S count)%nat with (S (Z.to_nat i) + count)%nat by lia.
      rewrite Hdrop. simpl. apply drop_insert_lt. lia.
Qed.

(** X7.  DestroyGLTextures on a well-formed registry returns and keeps
    the entry count and every slot's tag.  It issues one glGenTextures
    per loaded slot, in slot order, and nothing else: the names are the
    ones the driver hands out when asked that many times in a row, each
    time with the log as it then stands, and the k-th of them is the handle
    the k-th loaded slot holds afterwards, whatever it held before.  The
    slots that are not loaded, the shader manager, the materials and the
    meshes are left as they were. *)
Theorem DestroyGLTextures_only_generates (st : SceneManager) :
  wf st ->
  exists st',
    DestroyGLTextures glGenTextures st = Ok st' /\
    wf st' /\
    m_loadedTextures st' = m_loadedTextures st /\
    tag <$> m_textureIDs st' = tag <$> m_textureIDs st /\
    ID <$> loaded st' =
      generated glGenTextures (Z.to_nat (m_loadedTextures st)) (gl_calls st) /\
    length (loaded st') = Z.to_nat (m_loadedTextures st) /\
    gl_calls st' = gl_calls st ++ (GL.GenTextures ∘ ID <$> loaded st') /\
    drop (Z.to_nat (m_loadedTextures st)) (m_textureIDs st') =
      drop (Z.to_nat (m_loadedTextures st)) (m_textureIDs st) /\
    m_pShaderManager st' = m_pShaderManager st /\
    m_objectMaterials st' = m_objectMaterials st /\
    m_basicMeshes st' = m_basicMeshes st.
Proof.
  intros Hwf. unfold DestroyGLTextures, for_upto.
  destruct (DestroyGLTextures_log_loop (Z.to_nat (m_loadedTextures st)) 0 st Hwf)
    as (st' & Hrun & Hwf' & Hn & Hgl & Hnames & _ & Hdrop & Hsh & Hms & Hme);
    [lia | destruct Hwf; lia |].
  destruct (DestroyGLTextures_loop glGenTextures (Z.to_nat (m_loadedTextures st)) 0 st Hwf)
    as (st2 & Hrun2 & _ & Htags); [lia | destruct Hwf; lia |].
  assert (st2 = st') as -> by congruence.
  exists st'. split_and!; try done.
  - unfold loaded. by rewrite Hn, <- Hnames, drop_0.
  - rewrite <- Hn. rewrite (loaded_length st' Hwf'). lia.
  - rewrite Hgl. unfold loaded. by rewrite Hn, drop_0.
Qed.

(** *** The scene's own loads *)

Lemma LoadSceneTextures_unfold st :
  LoadSceneTextures stbi_load glGenTextures st =
  load_all scene_textures st ≫= BindGLTextures.
Proof.
  unfold LoadSceneTextures, scene_textures. cbn [load_all].
  repeat lazymatch goal with
         | |- context [CreateGLTexture ?f ?t ?s] =>
             destruct (CreateGLTexture f t s) as [[? ?]|];
             cbn [mbind outcome_bind snd]; [|reflexivity]
         end.
  reflexivity.
Qed.

Lemma accepted_tags_NoDup calls :
  NoDup (snd <$> calls) -> NoDup (accepted_tags calls).
Proof.
  intros H. eapply sublist_NoDup; [exact H|].
  unfold accepted_tags. apply fmap_sublist, sublist_filter.
Qed.

Lemma first_match_None tag' (l : list TEXTURE_INFO) :
  tag' ∉ tag <$> l -> first_match tag' l = None.
Proof.
  intros Hnotin. apply list_find_None, Forall_forall. intros t Hin Htag.
  apply Hnotin. rewrite <- Htag. by apply list_elem_of_fmap_2.
Qed.

Lemma first_match_NoDup (l : list TEXTURE_INFO) k t :
  NoDup (tag <$> l) -> l !! k = Some t -> first_match (tag t) l = Some (k, t).
Proof.
  intros Hnodup Hk. apply list_find_Some. split_and!; [done..|].
  intros j u Hj Hlt Htag.
  assert (j = k); [|lia].
  eapply (NoDup_lookup _ _ _ (tag t) Hnodup); rewrite list_lookup_fmap.
  - by rewrite Hj, <- Htag.
  - by rewrite Hk.
Qed.

Lemma accepted_scene_textures_length :
  (length (accepted_tags scene_textures) <= 9)%nat.
Proof.
  unfold accepted_tags. rewrite length_fmap.
  apply (length_filter (λ c : string * string, usable c.1 = true) scene_textures).
Qed.

(** LoadSceneTextures on a table with room for nine more entries: the nine
    loads run, then the loaded slots are bound. *)
Lemma LoadSceneTextures_effect st :
  wf st -> m_loadedTextures st + 9 <= capacity ->
  exists st1,
    LoadSceneTextures stbi_load glGenTextures st =
      Ok (gl (bind_calls 0 (loaded st1)) st1) /\
    wf st1 /\
    tag <$> loaded st1 = (tag <$> loaded st) ++ accepted_tags scene_textures /\
    m_pShaderManager st1 = m_pShaderManager st /\
    m_objectMaterials st1 = m_objectMaterials st /\
    m_basicMeshes st1 = m_basicMeshes st.
Proof.
  intros Hwf Hroom. rewrite LoadSceneTextures_unfold.
  pose proof accepted_scene_textures_length as Hfit.
  destruct (load_all_fits stbi_load glGenTextures scene_textures st Hwf)
    as (st1 & Hrun & Hwf1 & Hn & _ & Htags); [lia|].
  rewrite Hrun. cbn [mbind outcome_bind].
  destruct (load_all_effect scene_textures _ _ Hwf Hrun)
    as (_ & _ & _ & _ & Hsh & Hms & Hme).
  exists st1. split_and!; try done.
  unfold BindGLTextures, for_upto.
  rewrite BindGLTextures_loop by (done || destruct Hwf1; lia).
  by rewrite drop_0.
Qed.

(** X8.  LoadSceneTextures on a freshly constructed manager returns
    whatever the decoder answers; the loaded tags are those of the accepted
    files among its nine, in call order; each of them resolves to its
    position in that order and any other tag to -1; and the last OpenGL
    calls bind the loaded slots to their units. *)
Theorem LoadSceneTextures_assigns_slots (sh : option Shader.ShaderManager) :
  exists st',
    LoadSceneTextures stbi_load glGenTextures (SceneManager_ctor sh) = Ok st' /\
    wf st' /\
    tag <$> loaded st' = accepted_tags scene_textures /\
    (forall (k : nat) tag',
        accepted_tags scene_textures !! k = Some tag' ->
        FindTextureSlot tag' st' = Ok (Z.of_nat k)) /\
    (forall tag',
        tag' ∉ accepted_tags scene_textures ->
        FindTextureSlot tag' st' = Ok (-1)) /\
    (exists before, gl_calls st' = before ++ bind_calls 0 (loaded st')) /\
    m_pShaderManager st' = sh /\ m_objectMaterials st' = [] /\ m_basicMeshes st' = [].
Proof.
  destruct (LoadSceneTextures_effect (SceneManager_ctor sh) (wf_ctor sh))
    as (st1 & Hrun & Hwf1 & Htags & Hsh & Hms & Hme); [simpl; unfold capacity; lia|].
  eexists. split; [exact Hrun|].
  assert (Hwf' : wf (gl (bind_calls 0 (loaded st1)) st1)) by done.
  simpl in Htags.
  assert (Hnodup : NoDup (tag <$> loaded st1)).
  { rewrite Htags. apply accepted_tags_NoDup.
    apply (bool_decide_unpack _). vm_compute. exact I. }
  split_and!; try done.
  - intros k tag' Hk. rewrite FindTextureSlot_scan by done.
    change (loaded (gl (bind_calls 0 (loaded st1)) st1)) with (loaded st1).
    rewrite <- Htags, list_lookup_fmap in Hk.
    destruct (loaded st1 !! k) as [t|] eqn:Ht; [|done]. injection Hk as <-.
    by rewrite (first_match_NoDup _ _ _ Hnodup Ht).
  - intros tag' Hnotin. rewrite FindTextureSlot_scan by done.
    change (loaded (gl (bind_calls 0 (loaded st1)) st1)) with (loaded st1).
    rewrite first_match_None; [done|]. by rewrite Htags.
  - by eexists.
Qed.

End MoreLoading.

Lemma BindGLTextures_binds_slot_to_unit_witness :
  BindGLTextures Sample.collide =
  Ok (gl [GL.ActiveTexture 0; GL.BindTexture 1;
          GL.ActiveTexture 1; GL.BindTexture 2;
          GL.ActiveTexture 2; GL.BindTexture 3] Sample.collide).
Proof.
  destruct (BindGLTextures_binds_slot_to_unit Sample.collide) as [H _].
  - vm_compute. split; [reflexivity | split; discriminate].
  - exact H.
Defined.

Lemma CreateGLTexture_returns_what_it_did_witness :
  m_loadedTextures Sample.four = 4 /\
  slot_at Sample.four 3 = Some (mkTEXTURE_INFO "stainless" 4).
Proof.
  destruct (CreateGLTexture_returns_what_it_did (Sample.decoder 3) Sample.driver
              "stainless.jpg" "stainless" Sample.collide Sample.four true)
    as (_ & _ & H & _).
  - vm_compute. split; [reflexivity | split; discriminate].
  - vm_compute. reflexivity.
  - exact (H eq_refl).
Defined.

Lemma CreateGLTexture_keeps_registrations_witness :
  FindTextureSlot "table" Sample.four = Ok 2 /\
  FindTextureID "table" Sample.four = FindTextureID "table" Sample.collide.
Proof.
  apply (CreateGLTexture_keeps_registrations (Sample.decoder 3) Sample.driver
           "stainless.jpg" "stainless" "table" Sample.collide Sample.four true 2).
  - vm_compute. split; [reflexivity | split; discriminate].
  - vm_compute. reflexivity.
  - discriminate.
  - vm_compute. reflexivity.
Defined.

Lemma tag_resolves_iff_loaded_witness :
  m_loadedTextures Sample.four =
    m_loadedTextures Sample.collide +
    Z.of_nat (length (accepted_tags (Sample.decoder 3) [("stainless.jpg", "stainless")])) /\
  (FindTextureSlot "cheddar" Sample.four = Ok (-1) <->
   FindTextureSlot "cheddar" Sample.collide = Ok (-1) /\
   "cheddar" ∉ accepted_tags (Sample.decoder 3) [("stainless.jpg", "stainless")]).
Proof.
  apply (tag_resolves_iff_loaded (Sample.decoder 3) Sample.driver
           [("stainless.jpg", "stainless")] Sample.collide Sample.four "cheddar").
  - vm_compute. split; [reflexivity | split; discriminate].
  - vm_compute. reflexivity.
Defined.

Lemma DestroyGLTextures_only_generates_witness :
  exists st',
    DestroyGLTextures Sample.driver Sample.collide = Ok st' /\
    m_loadedTextures st' = 3 /\
    ID <$> loaded Sample.collide = [1; 2; 3] /\
    ID <$> loaded st' = [4; 5; 6] /\
    gl_calls st' =
      gl_calls Sample.collide ++
      [GL.GenTextures 4; GL.GenTextures 5; GL.GenTextures 6].
Proof.
  destruct (DestroyGLTextures_only_generates Sample.driver Sample.collide)
    as (st' & Hrun & _ & Hn & _ & Hnames & _ & Hgl & _).
  - vm_compute. split; [reflexivity | split; discriminate].
  - exists st'. split_and!; [exact Hrun | exact Hn | reflexivity | exact Hnames |].
    rewrite Hgl, list_fmap_compose, Hnames. reflexivity.
Defined.

(** * Further properties of the material registry *)

Lemma FindMaterial_while_scan st tag' material (k : nat) :
  forall index,
    0 <= index ->
    Z.to_nat (Z.of_nat (length (m_objectMaterials st)) - index) = k ->
    FindMaterial_while st tag' material index false =
    Ok (match first_preset tag' (drop (Z.to_nat index) (m_objectMaterials st)) with
        | Some (_, m) => copy_material m material
        | None => material
        end).
Proof.
  induction k as [|k IH]; intros index Hidx Hk;
    rewrite FindMaterial_while_step.
  - replace (index <? _) with false by (symmetry; apply Z.ltb_ge; lia).
    rewrite drop_ge by lia. done.
  - replace (index <? _) with true by (symmetry; apply Z.ltb_lt; lia).
    destruct (lookup_lt_is_Some_2 (m_objectMaterials st) (Z.to_nat index))
      as [m Hm]; [lia|]. rewrite Hm. simpl.
    rewrite (drop_S _ _ _ Hm). unfold first_preset. simpl.
    destruct (String.eqb_spec (mtag m) tag') as [Heq|Hne].
    + rewrite FindMaterial_while_step, andb_false_r.
      by rewrite decide_True.
    + rewrite decide_False by done. rewrite IH by lia.
      replace (Z.to_nat (index + 1)) with (S (Z.to_nat index)) by lia.
      fold (first_preset tag' (drop (S (Z.to_nat index)) (m_objectMaterials st))).
      by destruct (first_preset _ _) as [[i u]|].
Qed.

(** With presets defined FindMaterial answers true, and the caller's
    material comes back with the fields of the first preset that carries the
    tag, or as it was when none does. *)
Lemma FindMaterial_scan tag' material st :
  m_objectMaterials st <> [] ->
  FindMaterial tag' material st =
  Ok (true,
      match first_preset tag' (m_objectMaterials st) with
      | Some (_, m) => copy_material m material
      | None => material
      end).
Proof.
  intros Hne. unfold FindMaterial.
  replace (_ =? 0) with false
    by (symmetry; apply Z.eqb_neq; destruct (m_objectMaterials st); [done | simpl; lia]).
  by rewrite (FindMaterial_while_scan st tag' material _ 0 ltac:(done) eq_refl).
Qed.

(** X9.  FindMaterial answers false only when no preset is defined.
    Otherwise it answers true, and the caller's material comes back with
    the five lighting fields of the first preset that carries the tag, its
    own tag field kept, or unchanged when no preset carries the tag. *)
Theorem FindMaterial_first_preset
    (tag' : string) (material : OBJECT_MATERIAL) (st : SceneManager) :
  FindMaterial tag' material st =
  Ok (match m_objectMaterials st with
      | [] => (false, material)
      | _ =>
          (true,
           match first_preset tag' (m_objectMaterials st) with
           | Some (_, m) =>
               mkOBJECT_MATERIAL (ambientColor m) (ambientStrength m)
                 (diffuseColor m) (specularColor m) (shininess m) (mtag material)
           | None => material
           end)
      end).
Proof.
  destruct (m_objectMaterials st) as [|m0 ms] eqn:Hms.
  - unfold FindMaterial. by rewrite Hms.
  - rewrite FindMaterial_scan by (by rewrite Hms). by rewrite Hms.
Qed.

Lemma write_material_copy m material sh :
  write_material (copy_material m material) sh = write_material m sh.
Proof. reflexivity. Qed.

Section MoreMaterials.

Variable indeterminate : OBJECT_MATERIAL.

Local Abbreviation SetShaderMaterial := (SetShaderMaterial indeterminate).

(** What SetShaderMaterial does, by cases on the presets and the shader
    manager. *)
Lemma SetShaderMaterial_cases materialTag st :
  SetShaderMaterial materialTag st =
  match m_objectMaterials st with
  | [] => Ok st
  | _ =>
      match m_pShaderManager st with
      | None => Undefined NullDereference
      | Some sh =>
          Ok (set_shader
                (Some (write_material
                         match first_preset materialTag (m_objectMaterials st) with
                         | Some (_, m) => m
                         | None => indeterminate
                         end sh)) st)
      end
  end.
Proof.
  unfold SetShaderMaterial. destruct (m_objectMaterials st) as [|m0 ms] eqn:Hms; [done|].
  replace (_ >? 0) with true by (symmetry; apply Z.gtb_lt; simpl; lia).
  rewrite FindMaterial_scan by (by rewrite Hms). rewrite Hms.
  cbn [mbind outcome_bind].
  destruct (m_pShaderManager st); [|done].
  by destruct (first_preset _ _) as [[i m]|].
Qed.

(** X10.  With a shader manager and a preset carrying the tag,
    SetShaderMaterial leaves the five material uniforms holding the fields
    of the first such preset and every other uniform as it was. *)
Theorem SetShaderMaterial_writes_first_preset
    (materialTag : string) (st : SceneManager) (sh : Shader.ShaderManager)
    (i : nat) (m : OBJECT_MATERIAL) :
  m_pShaderManager st = Some sh ->
  first_preset materialTag (m_objectMaterials st) = Some (i, m) ->
  exists sh',
    SetShaderMaterial materialTag st = Ok (set_shader (Some sh') st) /\
    Shader.uniform sh' "material.ambientColor" = Some (Shader.Vec3 (ambientColor m)) /\
    Shader.uniform sh' "material.ambientStrength" = Some (Shader.Float (ambientStrength m)) /\
    Shader.uniform sh' "material.diffuseColor" = Some (Shader.Vec3 (diffuseColor m)) /\
    Shader.uniform sh' "material.specularColor" = Some (Shader.Vec3 (specularColor m)) /\
    Shader.uniform sh' "material.shininess" = Some (Shader.Float (shininess m)) /\
    forall name,
      name ∉ ["material.ambientColor"; "material.ambientStrength";
              "material.diffuseColor"; "material.specularColor";
              "material.shininess"] ->
      Shader.uniform sh' name = Shader.uniform sh name.
Proof.
  intros Hsh Hfirst. rewrite SetShaderMaterial_cases, Hsh, Hfirst.
  destruct (m_objectMaterials st) as [|m0 ms]; [done|].
  eexists. split; [reflexivity|].
  unfold write_material, Shader.setVec3Value, Shader.setFloatValue.
  split_and!.
  - rewrite !uniform_set_ne by done. apply uniform_set_eq.
  - rewrite !uniform_set_ne by done. apply uniform_set_eq.
  - rewrite !uniform_set_ne by done. apply uniform_set_eq.
  - rewrite !uniform_set_ne by done. apply uniform_set_eq.
  - apply uniform_set_eq.
  - intros name Hname. rewrite !uniform_set_ne; [done|..];
      intros <-; apply Hname; repeat constructor.
Qed.

(** X11.  SetShaderMaterial does not test the shader manager pointer: on
    a null pointer it returns without effect when no preset is defined and
    dereferences the null pointer as soon as one is. *)
Theorem SetShaderMaterial_null_shader_manager
    (materialTag : string) (st : SceneManager) :
  m_pShaderManager st = None ->
  (m_objectMaterials st = [] -> SetShaderMaterial materialTag st = Ok st) /\
  (m_objectMaterials st <> [] ->
     SetShaderMaterial materialTag st = Undefined NullDereference).
Proof.
  intros Hnull. rewrite SetShaderMaterial_cases, Hnull.
  by destruct (m_objectMaterials st).
Qed.

End MoreMaterials.

Lemma SetShaderMaterial_writes_first_preset_witness :
  exists sh',
    SetShaderMaterial Sample.garbage "glass" Sample.with_materials =
      Ok (set_shader (Some sh') Sample.with_materials) /\
    Shader.uniform sh' "material.shininess" = Some (Shader.Float 85).
Proof.
  destruct (SetShaderMaterial_writes_first_preset Sample.garbage "glass"
              Sample.with_materials [(g_UseTextureName, Shader.Int 1)] 2
              (mkOBJECT_MATERIAL (Glm.mkvec3 0.4 0.4 0.4) 0.3 (Glm.mkvec3 0.3 0.3 0.3)
                 (Glm.mkvec3 0.6 0.6 0.6) 85 "glass"))
    as (sh' & Hrun & _ & _ & _ & _ & Hshine & _).
  - reflexivity.
  - reflexivity.
  - exists sh'. split; [exact Hrun | exact Hshine].
Defined.

Lemma SetShaderMaterial_null_shader_manager_witness :
  SetShaderMaterial Sample.garbage "wood" Sample.unbound = Ok Sample.unbound /\
  SetShaderMaterial Sample.garbage "wood" Sample.unbound_with_materials =
    Undefined NullDereference.
Proof.
  split.
  - apply (SetShaderMaterial_null_shader_manager Sample.garbage "wood" Sample.unbound);
      reflexivity.
  - apply (SetShaderMaterial_null_shader_manager Sample.garbage "wood"
             Sample.unbound_with_materials); [reflexivity | discriminate].
Defined.

(** * Further properties of the shader bridge *)

(** X12.  With a shader manager, SetTransformations changes no uniform
    but the model matrix, SetShaderColor none but the use-texture flag and
    the color, SetShaderTexture none but the flag and the sampler, and
    SetTextureUVScale none but UVscale, which it sets to (u, v). *)
Theorem bridge_writes_only_its_uniforms
    (st : SceneManager) (sh : Shader.ShaderManager) :
  m_pShaderManager st = Some sh -> wf st ->
  (forall scaleXYZ rx ry rz positionXYZ, exists sh',
      m_pShaderManager (SetTransformations scaleXYZ rx ry rz positionXYZ st) = Some sh' /\
      forall name, name <> g_ModelName ->
        Shader.uniform sh' name = Shader.uniform sh name) /\
  (forall r g b a, exists sh',
      m_pShaderManager (SetShaderColor r g b a st) = Some sh' /\
      forall name, name <> g_UseTextureName -> name <> g_ColorValueName ->
        Shader.uniform sh' name = Shader.uniform sh name) /\
  (forall textureTag, exists st' sh',
      SetShaderTexture textureTag st = Ok st' /\
      m_pShaderManager st' = Some sh' /\
      forall name, name <> g_UseTextureName -> name <> g_TextureValueName ->
        Shader.uniform sh' name = Shader.uniform sh name) /\
  (forall u v, exists sh',
      m_pShaderManager (SetTextureUVScale u v st) = Some sh' /\
      Shader.uniform sh' "UVscale" = Some (Shader.Vec2 (Glm.mkvec2 u v)) /\
      forall name, name <> "UVscale" ->
        Shader.uniform sh' name = Shader.uniform sh name).
Proof.
  intros Hsh Hwf. split_and!.
  - intros. unfold SetTransformations. rewrite Hsh. eexists.
    split; [reflexivity|]. intros name Hne.
    unfold Shader.setMat4Value. by rewrite uniform_set_ne.
  - intros. unfold SetShaderColor. rewrite Hsh. eexists.
    split; [reflexivity|]. intros name Hne1 Hne2.
    unfold Shader.setVec4Value, Shader.setIntValue. by rewrite !uniform_set_ne.
  - intros. unfold SetShaderTexture. rewrite Hsh.
    rewrite FindTextureSlot_scan by done. cbn [mbind outcome_bind].
    eexists _, _. split_and!; [reflexivity | reflexivity |].
    intros name Hne1 Hne2.
    unfold Shader.setSampler2DValue, Shader.setIntValue. by rewrite !uniform_set_ne.
  - intros. unfold SetTextureUVScale. rewrite Hsh. eexists.
    split_and!; [reflexivity | apply uniform_set_eq |].
    intros name Hne. unfold Shader.setVec2Value. by rewrite uniform_set_ne.
Qed.

Lemma bridge_writes_only_its_uniforms_witness :
  exists sh',
    m_pShaderManager (SetShaderColor 1 0 0 1
        (SetTransformations (Glm.mkvec3 1 1 1) 0 0 0 (Glm.mkvec3 0 0 0) Sample.textured))
      = Some sh' /\
    Shader.uniform sh' g_ModelName =
      Some (Shader.Mat4 (modelView (Glm.mkvec3 1 1 1) 0 0 0 (Glm.mkvec3 0 0 0))).
Proof.
  destruct (bridge_writes_only_its_uniforms
              (SetTransformations (Glm.mkvec3 1 1 1) 0 0 0 (Glm.mkvec3 0 0 0) Sample.textured)
              (Shader.setMat4Value g_ModelName
                 (modelView (Glm.mkvec3 1 1 1) 0 0 0 (Glm.mkvec3 0 0 0))
                 [(g_UseTextureName, Shader.Int 1)]))
    as (_ & H & _).
  - reflexivity.
  - split; [reflexivity | simpl; unfold capacity; lia].
  - destruct (H 1 0 0 1)%R as (sh' & Hsh' & Hframe).
    exists sh'. split; [exact Hsh'|].
    rewrite Hframe by discriminate. apply uniform_set_eq.
Defined.

(** * Further properties of the model matrix *)
Section MoreModelMatrix.
Local Open Scope R_scope.

(** X13.  Whatever the scale and the rotations, the model matrix sends
    the local origin to the position, keeps the fourth coordinate of every
    vector, and moves a direction (fourth coordinate 0) as it would with no
    translation. *)
Theorem model_matrix_is_affine
    (sx sy sz rx ry rz px py pz : R) :
  let M := modelView (Glm.mkvec3 sx sy sz) rx ry rz (Glm.mkvec3 px py pz) in
  Glm.mul_vec M (Glm.mkvec4 0 0 0 1) = Glm.mkvec4 px py pz 1 /\
  (forall x y z w, Glm.w4 (Glm.mul_vec M (Glm.mkvec4 x y z w)) = w) /\
  (forall x y z,
     Glm.mul_vec M (Glm.mkvec4 x y z 0) =
     Glm.mul_vec (modelView (Glm.mkvec3 sx sy sz) rx ry rz (Glm.mkvec3 0 0 0))
                 (Glm.mkvec4 x y z 0)).
Proof.
  intros M. subst M. split_and!.
  - rewrite modelView_apply. cbv zeta. f_equal; ring.
  - intros x y z w. by rewrite modelView_apply.
  - intros x y z. rewrite !modelView_apply. cbv zeta. f_equal; ring.
Qed.

(** X14.  With the three angles at zero the model matrix scales each
    coordinate and then translates it. *)
Theorem model_matrix_without_rotation (sx sy sz px py pz x y z w : R) :
  Glm.mul_vec (modelView (Glm.mkvec3 sx sy sz) 0 0 0 (Glm.mkvec3 px py pz))
              (Glm.mkvec4 x y z w) =
  Glm.mkvec4 (sx * x + px * w) (sy * y + py * w) (sz * z + pz * w) w.
Proof.
  rewrite modelView_apply, radians_zero, cos_0, sin_0. cbv zeta.
  f_equal; ring.
Qed.

End MoreModelMatrix.

(** * Further properties of scene preparation and rendering *)

Lemma drew_trans cs1 cs2 st0 st1 st2 :
  drew cs1 st0 st1 -> drew cs2 st1 st2 -> drew (cs1 ++ cs2) st0 st2.
Proof.
  intros (Hm1 & Hts1 & Hn1 & Hms1 & Hp1) (Hm2 & Hts2 & Hn2 & Hms2 & Hp2).
  unfold drew. rewrite Hm2, Hm1, app_assoc. split_and!; try congruence.
  by rewrite Hp2.
Qed.

(** The mesh calls of one render pass. *)
Lemma RenderScene_runs indeterminate st :
  renderable st ->
  exists st',
    RenderScene indeterminate st = Ok st' /\ renderable st' /\
    drew ([Meshes.DrawBoxMesh] ++ [Meshes.DrawPlaneMesh] ++
          [Meshes.DrawCylinderMesh false false true;
           Meshes.DrawCylinderMesh true false false] ++
          [Meshes.DrawBoxMesh; Meshes.DrawBoxMesh; Meshes.DrawBoxMesh] ++
          [Meshes.DrawCylinderMesh false false true;
           Meshes.DrawCylinderMesh true false false] ++
          [Meshes.DrawHalfSphereMesh; Meshes.DrawCylinderMesh false false true;
           Meshes.DrawHalfSphereMesh; Meshes.DrawCylinderMesh false false true;
           Meshes.DrawTorusMesh; Meshes.DrawTorusMesh]) st st'.
Proof.
  intros H.
  destruct (RenderTable_draws indeterminate st H) as (s1 & E1 & H1 & D1).
  destruct (RenderBackdrop_draws s1 H1) as (s2 & E2 & H2 & D2).
  destruct (RenderCheeseWheel_draws indeterminate s2 H2) as (s3 & E3 & H3 & D3).
  destruct (RenderBook_draws indeterminate s3 H3) as (s4 & E4 & H4 & D4).
  destruct (RenderWineGlass_draws indeterminate s4 H4) as (s5 & E5 & H5 & D5).
  destruct (RenderWineBottle_draws indeterminate s5 H5) as (s6 & E6 & H6 & D6).
  exists s6. split_and!; [|done|].
  - unfold RenderScene.
    rewrite E1; cbn [mbind outcome_bind]. rewrite E2; cbn [mbind outcome_bind].
    rewrite E3; cbn [mbind outcome_bind]. rewrite E4; cbn [mbind outcome_bind].
    rewrite E5; cbn [mbind outcome_bind]. done.
  - eapply drew_trans; [exact D1|]. eapply drew_trans; [exact D2|].
    eapply drew_trans; [exact D3|]. eapply drew_trans; [exact D4|].
    eapply drew_trans; [exact D5|exact D6].
Qed.

(** X16.  A render pass from a renderable state leaves the texture table,
    the count and the materials as they were, so every tag resolves as
    before and a second pass runs and requests the same fifteen primitives
    again. *)
Theorem RenderScene_can_be_repeated (indeterminate : OBJECT_MATERIAL) (st : SceneManager) :
  renderable st ->
  exists once twice,
    RenderScene indeterminate st = Ok once /\
    RenderScene indeterminate once = Ok twice /\
    m_textureIDs twice = m_textureIDs st /\
    m_loadedTextures twice = m_loadedTextures st /\
    m_objectMaterials twice = m_objectMaterials st /\
    (forall tag', FindTextureSlot tag' twice = FindTextureSlot tag' st) /\
    exists pass,
      length pass = 15%nat /\
      Meshes.draws (m_basicMeshes once) = Meshes.draws (m_basicMeshes st) ++ pass /\
      Meshes.draws (m_basicMeshes twice) =
        Meshes.draws (m_basicMeshes st) ++ pass ++ pass.
Proof.
  intros H.
  destruct (RenderScene_runs indeterminate st H) as (s1 & E1 & H1 & D1).
  destruct (RenderScene_runs indeterminate s1 H1) as (s2 & E2 & H2 & D2).
  pose proof (drew_draws _ _ _ D1) as Hd1.
  pose proof (drew_draws _ _ _ D2) as Hd2.
  destruct D1 as (_ & Hts1 & Hn1 & Hms1 & _), D2 as (_ & Hts2 & Hn2 & Hms2 & _).
  exists s1, s2. split_and!; try congruence.
  - intros tag'. rewrite !FindTextureSlot_scan by (apply H || apply H2).
    unfold loaded. by rewrite Hts2, Hn2, Hts1, Hn1.
  - eexists. split_and!; [|exact Hd1|].
    + reflexivity.
    + rewrite Hd2, Hd1, <- app_assoc. reflexivity.
Qed.

Lemma RenderScene_can_be_repeated_witness :
  exists once twice,
    RenderScene Sample.garbage Sample.with_materials = Ok once /\
    RenderScene Sample.garbage once = Ok twice /\
    m_loadedTextures twice = 3.
Proof.
  destruct (RenderScene_can_be_repeated Sample.garbage Sample.with_materials)
    as (once & twice & E1 & E2 & _ & Hn & _).
  - split; [split; [reflexivity | simpl; unfold capacity; lia] | discriminate].
  - exists once, twice. split_and!; [exact E1 | exact E2 | exact Hn].
Defined.

Section MoreScene.

Variable stbi_load : string -> option Image.
Variable glGenTextures : list GL.call -> Z.

Local Abbreviation PrepareScene := (PrepareScene stbi_load glGenTextures).
Local Abbreviation LoadSceneTextures := (LoadSceneTextures stbi_load glGenTextures).
Local Abbreviation accepted_tags := (accepted_tags stbi_load).

Lemma uniform_set_other sh name other v :
  String.eqb name other = false ->
  Shader.uniform (Shader.set name v sh) other = Shader.uniform sh other.
Proof. intros H. apply uniform_set_ne. by apply String.eqb_neq. Qed.

(** SetupSceneLights leaves the lighting switch on. *)
Lemma SetupSceneLights_switch st sh :
  m_pShaderManager st = Some sh ->
  exists sh',
    SetupSceneLights st = Ok (set_shader (Some sh') st) /\
    Shader.uniform sh' g_UseLightingName = Some (Shader.Bool true).
Proof.
  intros Hsh. unfold SetupSceneLights. rewrite Hsh.
  eexists. split; [reflexivity|].
  unfold light, Shader.setVec3Value, Shader.setFloatValue, Shader.setBoolValue.
  rewrite !uniform_set_other by reflexivity.
  apply uniform_set_eq.
Qed.

(** X17.  On a freshly constructed manager with a shader manager,
    PrepareScene returns whatever the decoder answers, and leaves a
    renderable state: the accepted textures loaded in call order, the five
    presets metal, wood, glass, cheese, backdrop, the nine mesh loads, the
    lighting switch on; RenderScene then runs and requests fifteen
    primitives. *)
Theorem PrepareScene_then_RenderScene
    (sh : Shader.ShaderManager) (indeterminate : OBJECT_MATERIAL) :
  exists prepared rendered,
    PrepareScene (SceneManager_ctor (Some sh)) = Ok prepared /\
    renderable prepared /\
    tag <$> loaded prepared = accepted_tags scene_textures /\
    mtag <$> m_objectMaterials prepared =
      ["metal"; "wood"; "glass"; "cheese"; "backdrop"] /\
    m_basicMeshes prepared =
      [Meshes.LoadBoxMesh; Meshes.LoadPlaneMesh; Meshes.LoadCylinderMesh;
       Meshes.LoadConeMesh; Meshes.LoadPrismMesh; Meshes.LoadPyramid4Mesh;
       Meshes.LoadSphereMesh; Meshes.LoadTaperedCylinderMesh;
       Meshes.LoadTorusMesh] /\
    (exists sh', m_pShaderManager prepared = Some sh' /\
                 Shader.uniform sh' g_UseLightingName = Some (Shader.Bool true)) /\
    RenderScene indeterminate prepared = Ok rendered /\
    length (Meshes.draws (m_basicMeshes rendered)) = 15%nat.
Proof.
  destruct (LoadSceneTextures_effect stbi_load glGenTextures
              (SceneManager_ctor (Some sh)) (wf_ctor _))
    as (st1 & Hload & Hwf1 & Htags & Hsh & Hms & Hme); [simpl; unfold capacity; lia|].
  simpl in Htags, Hsh, Hms, Hme.
  set (st2 := DefineObjectMaterials (gl (bind_calls 0 (loaded st1)) st1)).
  destruct (SetupSceneLights_switch st2 sh Hsh) as (sh' & Hlights & Hswitch).
  eassert (Hprep : PrepareScene (SceneManager_ctor (Some sh)) = Ok _).
  { unfold PrepareScene. rewrite Hload. cbn [mbind outcome_bind]. cbv zeta.
    fold st2. rewrite Hlights. cbn [mbind outcome_bind]. reflexivity. }
  match type of Hprep with _ = Ok ?p => set (prepared := p) in * end.
  assert (Hren : renderable prepared).
  { split; [exact Hwf1 | discriminate]. }
  destruct (RenderScene_runs indeterminate prepared Hren) as (rendered & Hrun & _ & D).
  exists prepared, rendered. split_and!; try done.
  - subst prepared st2. simpl. by rewrite Hms.
  - subst prepared st2. simpl. by rewrite Hme.
  - by exists sh'.
  - rewrite (drew_draws _ _ _ D). subst prepared st2. simpl. by rewrite Hme.
Qed.

(** X18.  On a manager constructed with a null shader manager,
    PrepareScene dereferences the null pointer in SetupSceneLights,
    whatever the decoder answers. *)
Theorem PrepareScene_without_shader_manager :
  PrepareScene (SceneManager_ctor None) = Undefined NullDereference.
Proof.
  destruct (LoadSceneTextures_effect stbi_load glGenTextures
              (SceneManager_ctor None) (wf_ctor _))
    as (st1 & Hload & _ & _ & Hsh & _); [simpl; unfold capacity; lia|].
  unfold PrepareScene. rewrite Hload. cbn [mbind outcome_bind]. cbv zeta.
  unfold SetupSceneLights. simpl m_pShaderManager. by rewrite Hsh.
Qed.

End MoreScene.

(** *** The render pass and the unassigned material *)

Lemma SetTransformations_materials scaleXYZ rx ry rz positionXYZ st :
  m_objectMaterials (SetTransformations scaleXYZ rx ry rz positionXYZ st) =
  m_objectMaterials st.
Proof. unfold SetTransformations. by destruct (m_pShaderManager st). Qed.

Lemma SetShaderColor_materials r g b a st :
  m_objectMaterials (SetShaderColor r g b a st) = m_objectMaterials st.
Proof. unfold SetShaderColor. by destruct (m_pShaderManager st). Qed.

Lemma SetTextureUVScale_materials u v st :
  m_objectMaterials (SetTextureUVScale u v st) = m_objectMaterials st.
Proof. unfold SetTextureUVScale. by destruct (m_pShaderManager st). Qed.

Lemma mesh_materials c st : m_objectMaterials (mesh c st) = m_objectMaterials st.
Proof. reflexivity. Qed.

Lemma SetShaderTexture_materials textureTag st st' :
  SetShaderTexture textureTag st = Ok st' ->
  m_objectMaterials st' = m_objectMaterials st.
Proof.
  unfold SetShaderTexture. destruct (m_pShaderManager st); [|by intros [= <-]].
  destruct (FindTextureSlot textureTag st); [|done]. by intros [= <-].
Qed.

Lemma SetShaderMaterial_materials indeterminate materialTag st st' :
  SetShaderMaterial indeterminate materialTag st = Ok st' ->
  m_objectMaterials st' = m_objectMaterials st.
Proof.
  rewrite SetShaderMaterial_cases.
  destruct (m_objectMaterials st) eqn:Hms; [by intros [= <-]|].
  destruct (m_pShaderManager st); [|done]. intros [= <-]. by rewrite <- Hms.
Qed.

(** When a preset carries the tag, what SetShaderMaterial does is the same
    whatever its local held before the lookup. *)
Lemma SetShaderMaterial_assigned g1 g2 materialTag st :
  first_preset materialTag (m_objectMaterials st) <> None ->
  SetShaderMaterial g1 materialTag st = SetShaderMaterial g2 materialTag st.
Proof.
  intros Hsome. rewrite !SetShaderMaterial_cases.
  by destruct (first_preset materialTag (m_objectMaterials st)) as [[i m]|].
Qed.

Create Rewrite HintDb scene_materials.

#[export] Hint Rewrite SetTransformations_materials SetShaderColor_materials
  SetTextureUVScale_materials mesh_materials : scene_materials.

Section Unassigned.

Variable g1 : OBJECT_MATERIAL.
Variable g2 : OBJECT_MATERIAL.
Variable st0 : SceneManager.

Hypothesis wood : first_preset "wood" (m_objectMaterials st0) <> None.
Hypothesis cheese : first_preset "cheese" (m_objectMaterials st0) <> None.
Hypothesis glass : first_preset "glass" (m_objectMaterials st0) <> None.

(** Rewrites the materials of the state at hand to those of [st0]. *)
Ltac to_st0 :=
  autorewrite with scene_materials;
  repeat match goal with
         | H : m_objectMaterials _ = _ |- _ => rewrite H
         end.

(** One step of the comparison of a routine run with [g1] and with [g2]. *)
Ltac same_step :=
  lazymatch goal with
  | |- SetShaderMaterial g1 ?t ?s ≫= _ = _ =>
      rewrite (SetShaderMaterial_assigned g1 g2 t s) by (to_st0; assumption);
      let s' := fresh "s" in
      let E := fresh "E" in
      destruct (SetShaderMaterial g2 t s) as [s'|] eqn:E;
      cbn [mbind outcome_bind]; [|reflexivity];
      apply SetShaderMaterial_materials in E; autorewrite with scene_materials in E
  | |- SetShaderTexture ?t ?s ≫= _ = _ =>
      let s' := fresh "s" in
      let E := fresh "E" in
      destruct (SetShaderTexture t s) as [s'|] eqn:E;
      cbn [mbind outcome_bind]; [|reflexivity];
      apply SetShaderTexture_materials in E; autorewrite with scene_materials in E
  end.

Ltac same_run :=
  intros; cbv zeta; repeat (same_step; try rewrite_materials_hyp); try reflexivity
with rewrite_materials_hyp :=
  match goal with
  | E : m_objectMaterials ?s = m_objectMaterials ?p,
    H : m_objectMaterials ?p = m_objectMaterials st0 |- _ => rewrite H in E
  end.

Lemma RenderTable_same st :
  m_objectMaterials st = m_objectMaterials st0 ->
  RenderTable g1 st = RenderTable g2 st.
Proof. unfold RenderTable. same_run. Qed.

Lemma RenderCheeseWheel_same st :
  m_objectMaterials st = m_objectMaterials st0 ->
  RenderCheeseWheel g1 st = RenderCheeseWheel g2 st.
Proof. unfold RenderCheeseWheel. same_run. Qed.

Lemma RenderBook_same st :
  m_objectMaterials st = m_objectMaterials st0 ->
  RenderBook g1 st = RenderBook g2 st.
Proof. unfold RenderBook. same_run. Qed.

Lemma RenderWineGlass_same st :
  m_objectMaterials st = m_objectMaterials st0 ->
  RenderWineGlass g1 st = RenderWineGlass g2 st.
Proof. unfold RenderWineGlass. same_run. Qed.

Lemma RenderWineBottle_same st :
  m_objectMaterials st = m_objectMaterials st0 ->
  RenderWineBottle g1 st = RenderWineBottle g2 st.
Proof. unfold RenderWineBottle. same_run. Qed.

(** X19.  When presets carry the tags "wood", "cheese" and "glass", a
    render pass from a renderable state does not depend on what the
    unassigned local of SetShaderMaterial holds. *)
Theorem RenderScene_ignores_unassigned_material :
  renderable st0 -> RenderScene g1 st0 = RenderScene g2 st0.
Proof.
  intros H. unfold RenderScene.
  rewrite (RenderTable_same st0 eq_refl).
  destruct (RenderTable_draws g2 st0 H) as (s1 & E1 & H1 & (_ & _ & _ & M1 & _)).
  rewrite E1; cbn [mbind outcome_bind].
  destruct (RenderBackdrop_draws s1 H1) as (s2 & E2 & H2 & (_ & _ & _ & M2 & _)).
  rewrite E2; cbn [mbind outcome_bind]. rewrite M1 in M2.
  rewrite (RenderCheeseWheel_same s2 M2).
  destruct (RenderCheeseWheel_draws g2 s2 H2) as (s3 & E3 & H3 & (_ & _ & _ & M3 & _)).
  rewrite E3; cbn [mbind outcome_bind]. rewrite M2 in M3.
  rewrite (RenderBook_same s3 M3).
  destruct (RenderBook_draws g2 s3 H3) as (s4 & E4 & H4 & (_ & _ & _ & M4 & _)).
  rewrite E4; cbn [mbind outcome_bind]. rewrite M3 in M4.
  rewrite (RenderWineGlass_same s4 M4).
  destruct (RenderWineGlass_draws g2 s4 H4) as (s5 & E5 & H5 & (_ & _ & _ & M5 & _)).
  rewrite E5; cbn [mbind outcome_bind]. rewrite M4 in M5.
  apply (RenderWineBottle_same s5 M5).
Qed.

End Unassigned.

Lemma RenderScene_ignores_unassigned_material_witness :
  RenderScene Sample.garbage Sample.with_materials =
  RenderScene (mkOBJECT_MATERIAL (Glm.mkvec3 0 0 0) 0 (Glm.mkvec3 0 0 0)
                 (Glm.mkvec3 0 0 0) 0 "") Sample.with_materials.
Proof.
  apply RenderScene_ignores_unassigned_material.
  - discriminate.
  - discriminate.
  - discriminate.
  - split; [split; [reflexivity | simpl; unfold capacity; lia] | discriminate].
Defined.

(** *** Lookups that miss, presets defined twice *)

(** X20.  With a shader manager, SetShaderTexture on a tag no loaded slot
    carries still switches texturing on and selects sampler -1. *)
Theorem SetShaderTexture_unregistered_tag
    (textureTag : string) (st : SceneManager) (sh : Shader.ShaderManager) :
  wf st -> m_pShaderManager st = Some sh -> unregistered st textureTag ->
  SetShaderTexture textureTag st =
  Ok (set_shader
        (Some (sh ++ [(g_UseTextureName, Shader.Int 1);
                      (g_TextureValueName, Shader.Sampler2D (-1))])) st).
Proof.
  intros Hwf Hsh Hun. unfold SetShaderTexture. rewrite Hsh.
  rewrite FindTextureSlot_scan by done. rewrite unregistered_scan by done.
  cbn [mbind outcome_bind].
  unfold Shader.setSampler2DValue, Shader.setIntValue, Shader.set.
  by rewrite <- app_assoc.
Qed.

Lemma SetShaderTexture_unregistered_tag_witness :
  SetShaderTexture "cheddar" Sample.textured =
  Ok (set_shader
        (Some [(g_UseTextureName, Shader.Int 1);
               (g_UseTextureName, Shader.Int 1);
               (g_TextureValueName, Shader.Sampler2D (-1))]) Sample.textured).
Proof.
  apply (SetShaderTexture_unregistered_tag "cheddar" Sample.textured
           [(g_UseTextureName, Shader.Int 1)]).
  - split; [reflexivity | vm_compute; split; discriminate].
  - reflexivity.
  - intros i t Hi Ht.
    assert (i = 0 \/ i = 1 \/ i = 2) as [-> | [-> | ->]]
      by (change (m_loadedTextures Sample.textured) with 3 in Hi; lia);
      vm_compute in Ht; injection Ht as <-; discriminate.
Defined.

Lemma first_preset_app_l tag' (l k : list OBJECT_MATERIAL) p :
  first_preset tag' l = Some p -> first_preset tag' (l ++ k) = Some p.
Proof.
  unfold first_preset. destruct p as [i m]. intros H.
  apply list_find_app_Some. by left.
Qed.

Lemma first_preset_app_absent tag' (l k : list OBJECT_MATERIAL) :
  tag' ∉ mtag <$> k -> first_preset tag' (l ++ k) = first_preset tag' l.
Proof.
  intros Habsent.
  assert (Hk : list_find (λ m, mtag m = tag') k = None).
  { apply list_find_None, Forall_forall. intros m Hin Htag.
    apply Habsent. rewrite <- Htag. by apply list_elem_of_fmap_2. }
  unfold first_preset.
  destruct (list_find (λ m, mtag m = tag') l) as [[i m]|] eqn:Hl.
  - apply list_find_app_Some. by left.
  - apply list_find_None in Hl, Hk. apply list_find_None, Forall_app. by split.
Qed.

Lemma DefineObjectMaterials_appends st :
  exists five,
    m_objectMaterials (DefineObjectMaterials st) = m_objectMaterials st ++ five /\
    mtag <$> five = ["metal"; "wood"; "glass"; "cheese"; "backdrop"] /\
    forall st2, m_objectMaterials (DefineObjectMaterials st2) =
                m_objectMaterials st2 ++ five.
Proof.
  eexists. split_and!.
  - unfold DefineObjectMaterials, push_back. simpl.
    rewrite <- !app_assoc. reflexivity.
  - reflexivity.
  - intros st2. unfold DefineObjectMaterials, push_back. simpl.
    rewrite <- !app_assoc. reflexivity.
Qed.

(** X21.  Running DefineObjectMaterials a second time appends the five
    presets again and changes the answer of no FindMaterial lookup. *)
Theorem DefineObjectMaterials_twice
    (tag' : string) (material : OBJECT_MATERIAL) (st : SceneManager) :
  length (m_objectMaterials (DefineObjectMaterials (DefineObjectMaterials st))) =
    (length (m_objectMaterials st) + 10)%nat /\
  FindMaterial tag' material (DefineObjectMaterials (DefineObjectMaterials st)) =
  FindMaterial tag' material (DefineObjectMaterials st).
Proof.
  destruct (DefineObjectMaterials_appends st) as (five & Hone & Htags & Hany).
  pose proof (Hany (DefineObjectMaterials st)) as Htwo. rewrite Hone in Htwo.
  assert (Hlen : length five = 5%nat)
    by (rewrite <- (length_fmap mtag), Htags; reflexivity).
  split.
  - rewrite Htwo, !length_app. lia.
  - rewrite !FindMaterial_scan
      by (rewrite ?Htwo, ?Hone; destruct five; [done | by destruct (m_objectMaterials st)]).
    f_equal. f_equal. rewrite Htwo, Hone.
    destruct (decide (tag' ∈ mtag <$> five)) as [Hin|Hout].
    + assert (exists p, first_preset tag' (m_objectMaterials st ++ five) = Some p)
        as [p Hp].
      { destruct (first_preset tag' (m_objectMaterials st ++ five)) eqn:E; [by eexists|].
        apply list_find_None in E. apply Forall_app in E as [_ E].
        apply list_elem_of_fmap in Hin as (m & -> & Hm).
        by destruct (proj1 (Forall_forall _ _) E m Hm). }
      by rewrite (first_preset_app_l _ _ five _ Hp), Hp.
    + by rewrite first_preset_app_absent.
Qed.
